(** * SpotifyAPITest.py: a shallow embedding of the credential and
      connectivity checker, and the properties of its specification.

    The script is a sequence of calls into two external libraries
    (python-dotenv and spotipy) wrapped in prints and boolean bookkeeping.
    The embedding keeps that shape:

    - Python values that travel through the script (environment strings,
      JSON responses of the web API) are the type [pyval];
    - subscripting, [in], [.get], truth testing and format specs are total
      functions returning either a value or the exception Python raises;
    - the methods are written in a state-and-exception monad [M] whose
      state is the object ([self.results], [self.sp]) paired with the
      process (environment, standard output, the trace of library calls);
    - everything the libraries decide (what the .env file holds, whether a
      constructor raises, what the remote service answers) is a field of
      the record [World], over which every theorem quantifies. *)

From Stdlib Require Import ZArith QArith String Ascii List Lia.
From stdpp Require Import base option list strings gmap fin_maps.

Local Open Scope string_scope.
Local Open Scope list_scope.

(** ** Python values *)

Module Py.

(** JSON-shaped values: what [os.getenv] and the client library return.
    A dictionary keeps its items in insertion order; its keys are strings. *)
#[local] Unset Elimination Schemes.
Inductive pyval : Type :=
| PNone
| PBool (b : bool)
| PInt (n : Z)
| PFloat (q : Q)
| PStr (s : string)
| PList (l : list pyval)
| PDict (d : list (string * pyval)).
#[local] Set Elimination Schemes.

(** The exceptions the script can meet; all of them derive from Python's
    [Exception].  [LibraryError] stands for whatever dotenv, spotipy or the
    HTTP layer raise (SpotifyException, SpotifyOauthError, timeouts, ...). *)
Inductive exn : Type :=
| KeyError (k : pyval)
| IndexError
| TypeError
| ValueError
| OverflowError
| AttributeError (attr : string)
| LibraryError (msg : string).

Inductive result (A : Type) : Type :=
| Ret (a : A)
| Raise (e : exn).
Arguments Ret {A} a.
Arguments Raise {A} e.

Definition is_ret {A} (r : result A) : bool :=
  match r with Ret _ => true | Raise _ => false end.

(** [bool(v)]: the truth value Python gives [v] in [if v], [a or b],
    [a and b], [not v]. *)
Definition truthy (v : pyval) : bool :=
  match v with
  | PNone => false
  | PBool b => b
  | PInt n => negb (Z.eqb n 0)
  | PFloat q => negb (Z.eqb (Qnum q) 0)
  | PStr s => negb (String.eqb s "")
  | PList l => match l with [] => false | _ => true end
  | PDict d => match d with [] => false | _ => true end
  end.

(** [a or b] where evaluating [b] has no effect. *)
Definition py_or (a b : pyval) : pyval := if truthy a then a else b.

(** Lookup of a string key in a dictionary's items. *)
Fixpoint dict_lookup (k : string) (d : list (string * pyval)) : option pyval :=
  match d with
  | [] => None
  | (k', v) :: d' => if String.eqb k k' then Some v else dict_lookup k d'
  end.

(** [v[k]] for a string key [k]. *)
Definition getitem (v : pyval) (k : string) : result pyval :=
  match v with
  | PDict d =>
      match dict_lookup k d with
      | Some x => Ret x
      | None => Raise (KeyError (PStr k))
      end
  | _ => Raise TypeError
  end.

(** [v[i]] for a non-negative integer literal [i]. *)
Definition getindex (v : pyval) (i : nat) : result pyval :=
  match v with
  | PList l =>
      match nth_error l i with
      | Some x => Ret x
      | None => Raise IndexError
      end
  | PStr s =>
      match String.get i s with
      | Some c => Ret (PStr (String c EmptyString))
      | None => Raise IndexError
      end
  | PDict _ => Raise (KeyError (PInt (Z.of_nat i)))
  | _ => Raise TypeError
  end.

(** [list(v[:n])]: the elements the [for] loop over a slice visits. *)
Definition slice_to (v : pyval) (n : nat) : result (list pyval) :=
  match v with
  | PList l => Ret (firstn n l)
  | PStr s =>
      Ret (map (fun c => PStr (String c EmptyString))
               (firstn n (list_ascii_of_string s)))
  | _ => Raise TypeError
  end.

(** Is [k] a substring of [s]? *)
Fixpoint substring_of (k s : string) : bool :=
  String.prefix k s
  || match s with
     | EmptyString => false
     | String _ s' => substring_of k s'
     end.

(** [k in v] for a string [k]. *)
Definition contains (k : string) (v : pyval) : result bool :=
  match v with
  | PDict d => Ret (bool_decide (is_Some (dict_lookup k d)))
  | PList l =>
      Ret (existsb (fun x => match x with PStr s => String.eqb k s | _ => false end) l)
  | PStr s => Ret (substring_of k s)
  | _ => Raise TypeError
  end.

(** [v.get(k, default)]. *)
Definition dict_get (v : pyval) (k : string) (dflt : pyval) : result pyval :=
  match v with
  | PDict d => Ret (default dflt (dict_lookup k d))
  | _ => Raise (AttributeError "get")
  end.

End Py.

Import Py.

(** ** Standard output *)

(** A printed line is kept as the pieces of its f-string: literal text,
    [{value}], [{value:spec}] and [{e}] for a caught exception.  Rendering a
    value as text is CPython's business and plays no part in what follows. *)
Inductive fragment : Type :=
| Lit (s : string)
| Val (v : pyval)
| Fmt (v : pyval) (spec : string)
| Exc (e : exn).

Definition line : Type := list fragment.

(** An integer that [float(n)] can convert: rounded to the nearest double it
    stays below 2^1024. *)
Definition float_convertible (n : Z) : bool :=
  (Z.abs n <? 2 ^ 1024 - 2 ^ 970)%Z.

(** [format(v, spec)] for the two numeric specs of the script, [","] and
    [".2f"]: numbers (and booleans, which are integers) are accepted, a
    string raises ValueError, anything else TypeError.  With [".2f"] an
    integer is first converted to a float, which raises OverflowError when it
    is too large; [","] formats an integer of any size. *)
Definition numeric_format (v : pyval) (spec : string) : result fragment :=
  match v with
  | PBool _ | PFloat _ => Ret (Fmt v spec)
  | PInt n =>
      if String.eqb spec ".2f" && negb (float_convertible n)
      then Raise OverflowError
      else Ret (Fmt v spec)
  | PStr _ => Raise ValueError
  | PNone | PList _ | PDict _ => Raise TypeError
  end.

(** [v == 1]. *)
Definition equals_one (v : pyval) : bool :=
  match v with
  | PBool b => b
  | PInt n => Z.eqb n 1
  | PFloat q => Qeq_bool q 1
  | _ => false
  end.

Definition newline : string := String (ascii_of_nat 10) EmptyString.

Fixpoint repeat_string (s : string) (n : nat) : string :=
  match n with
  | O => ""
  | S n' => s +:+ repeat_string s n'
  end.

(** ** The outside world *)

(** [SpotifyClientCredentials(client_id=.., client_secret=..)]. *)
Record auth_manager : Type := {
  am_client_id : pyval;
  am_client_secret : pyval
}.

(** [spotipy.Spotify(auth_manager=.., requests_timeout=.., retries=..)];
    [None] for [retries] is the library's default. *)
Record client : Type := {
  cl_auth_manager : auth_manager;
  cl_requests_timeout : Z;
  cl_retries : option Z
}.

(** The four endpoints the script uses. *)
Inductive call : Type :=
| Search (q type : string) (limit : Z)
| Playlist (playlist_id : string)
| PlaylistTracks (playlist_id : string) (limit : Z)
| AudioFeatures (tracks : list pyval).

(** What the script asks of the libraries, in the order it asks. *)
Inductive action : Type :=
| NewCredentials (client_id client_secret : pyval)
| NewSpotify (am : auth_manager) (requests_timeout : Z) (retries : option Z)
| Request (c : client) (r : call).

(** Everything the libraries and the network decide.  Reading the .env file
    either raises (the file cannot be read or decoded) or yields its
    variables; a constructor either raises or builds its object; the answer to
    a request may depend on all that happened before it. *)
Record World : Type := {
  dotenv : result (gmap string string);
  credentials_error : pyval -> pyval -> option exn;
  spotify_error : auth_manager -> Z -> option Z -> option exn;
  remote : list action -> client -> call -> result pyval
}.

(** The variables that [load_dotenv] gets from the .env file: none when
    reading it raises. *)
Definition dotenv_file (W : World) : gmap string string :=
  match dotenv W with
  | Ret file => file
  | Raise _ => ∅
  end.

Record process : Type := {
  environ : gmap string string;
  stdout : list line;
  trace : list action
}.

(** ** The monad of the script: state and exceptions *)

(** A computation runs on the object state [S] and the process; an
    exception keeps the state reached when it was raised. *)
Definition M (S A : Type) : Type := S * process -> result A * (S * process).

#[global] Instance M_ret {S} : MRet (M S) := fun A a st => (Ret a, st).

#[global] Instance M_bind {S} : MBind (M S) := fun A B f m st =>
  match m st with
  | (Ret a, st') => f a st'
  | (Raise e, st') => (Raise e, st')
  end.

Definition raise {S A} (e : exn) : M S A := fun st => (Raise e, st).

(** A pure operation that may raise. *)
Definition eval {S A} (r : result A) : M S A := fun st => (r, st).

(** [try: m  except Exception as e: h e]. *)
Definition try_except {S A} (m : M S A) (h : exn -> M S A) : M S A := fun st =>
  match m st with
  | (Ret a, st') => (Ret a, st')
  | (Raise e, st') => h e st'
  end.

(** [for x in l: body x]. *)
Fixpoint for_each {S A} (l : list A) (body : A -> M S unit) : M S unit :=
  match l with
  | [] => mret tt
  | x :: l' => body x ;; for_each l' body
  end.

(** The state a computation ends in, whether it returned or raised. *)
Definition exec {S A} (m : M S A) (st : S * process) : S * process := snd (m st).

Section Primitives.
Context {S : Type}.
Variable W : World.

Definition print (l : line) : M S unit := fun '(s, p) =>
  (Ret tt, (s, {| environ := environ p; stdout := stdout p ++ [l]; trace := trace p |})).

(** [os.getenv(k)]. *)
Definition getenv (k : string) : M S pyval := fun '(s, p) =>
  (Ret (from_option PStr PNone (environ p !! k)), (s, p)).

(** [load_dotenv()]: the variables of the .env file that the environment
    does not define yet are added to it.  When the file cannot be read the
    call raises before it sets any variable. *)
Definition load_dotenv : M S unit := fun '(s, p) =>
  match dotenv W with
  | Ret file =>
      (Ret tt, (s, {| environ := environ p ∪ file; stdout := stdout p; trace := trace p |}))
  | Raise e => (Raise e, (s, p))
  end.

Definition record (a : action) : M S unit := fun '(s, p) =>
  (Ret tt, (s, {| environ := environ p; stdout := stdout p; trace := trace p ++ [a] |})).

Definition SpotifyClientCredentials (client_id client_secret : pyval) : M S auth_manager :=
  record (NewCredentials client_id client_secret) ;;
  match credentials_error W client_id client_secret with
  | Some e => raise e
  | None => mret {| am_client_id := client_id; am_client_secret := client_secret |}
  end.

Definition Spotify (am : auth_manager) (requests_timeout : Z) (retries : option Z)
  : M S client :=
  record (NewSpotify am requests_timeout retries) ;;
  match spotify_error W am requests_timeout retries with
  | Some e => raise e
  | None => mret {| cl_auth_manager := am; cl_requests_timeout := requests_timeout;
                    cl_retries := retries |}
  end.

(** One call of an endpoint on a client object. *)
Definition request (c : client) (r : call) : M S pyval := fun '(s, p) =>
  (remote W (trace p) c r,
   (s, {| environ := environ p; stdout := stdout p; trace := trace p ++ [Request c r] |})).

(** [sp.method(..)] where [sp] may be [None]. *)
Definition invoke (sp : option client) (method : string) (r : call) : M S pyval :=
  match sp with
  | Some c => request c r
  | None => raise (AttributeError method)
  end.
End Primitives.

(** ** Helpers the methods share *)

(** [v[k1][k2]...], left to right, each key a string or an index. *)
Inductive key : Type :=
| K (k : string)
| I (i : nat).

Fixpoint subscript (v : pyval) (path : list key) : result pyval :=
  match path with
  | [] => Ret v
  | k :: path' =>
      match (match k with K s => getitem v s | I i => getindex v i end) with
      | Ret v' => subscript v' path'
      | Raise e => Raise e
      end
  end.

(** [enumerate(l)]. *)
Definition enumerate {A} (l : list A) : list (nat * A) := imap pair l.

(** [results[k] = b] on an insertion-ordered dictionary: an existing key keeps
    its place, a new key goes last. *)
Fixpoint dict_set (k : string) (b : bool) (d : list (string * bool)) : list (string * bool) :=
  match d with
  | [] => [(k, b)]
  | (k', b') :: d' => if String.eqb k k' then (k', b) :: d' else (k', b') :: dict_set k b d'
  end.

(** [sum(d.values())]: [True] counts 1, [False] counts 0. *)
Definition sum_values (d : list (string * bool)) : nat :=
  length (filter (fun kv => kv.2 = true) d).

(** *** [test_name.replace('_', ' ').title()] and [:<20], on ASCII text

    The keys of the result mapping are ASCII, and these functions follow
    Python on ASCII text only: [str.title] also cases letters outside ASCII,
    and [:<20] counts code points where [String.length] counts bytes. *)

Definition is_lower (c : ascii) : bool :=
  (97 <=? nat_of_ascii c)%nat && (nat_of_ascii c <=? 122)%nat.
Definition is_upper (c : ascii) : bool :=
  (65 <=? nat_of_ascii c)%nat && (nat_of_ascii c <=? 90)%nat.
Definition to_upper (c : ascii) : ascii :=
  if is_lower c then ascii_of_nat (nat_of_ascii c - 32) else c.
Definition to_lower (c : ascii) : ascii :=
  if is_upper c then ascii_of_nat (nat_of_ascii c + 32) else c.

Fixpoint replace_char (old new : ascii) (s : string) : string :=
  match s with
  | EmptyString => EmptyString
  | String c s' => String (if Ascii.eqb c old then new else c) (replace_char old new s')
  end.

(** [in_word] tells whether the previous character was a letter. *)
Fixpoint title_from (in_word : bool) (s : string) : string :=
  match s with
  | EmptyString => EmptyString
  | String c s' =>
      String (if in_word then to_lower c else to_upper c)
             (title_from (is_lower c || is_upper c) s')
  end.
Definition title (s : string) : string := title_from false s.

Definition ljust (width : nat) (s : string) : string :=
  s +:+ repeat_string " " (width - String.length s).

(** ** class SpotifyAPITester *)

Record SpotifyAPITester : Type := {
  results : list (string * bool);
  sp : option client
}.

(** [__init__]. *)
Definition init : SpotifyAPITester := {|
  results := [("environment", false); ("authentication", false);
              ("api_connection", false); ("playlist_access", false);
              ("search_functionality", false)];
  sp := None
|}.

Abbreviation Method A := (M SpotifyAPITester A).

Definition get_sp : Method (option client) := fun '(s, p) => (Ret (sp s), (s, p)).

Definition set_sp (c : client) : Method unit := fun '(s, p) =>
  (Ret tt, ({| results := results s; sp := Some c |}, p)).

Definition get_results : Method (list (string * bool)) := fun '(s, p) =>
  (Ret (results s), (s, p)).

(** [self.results[k] = b]. *)
Definition set_result (k : string) (b : bool) : Method unit := fun '(s, p) =>
  (Ret tt, ({| results := dict_set k b (results s); sp := sp s |}, p)).

Definition bar : string := repeat_string "=" 50.

Definition print_header (message : string) : Method unit :=
  print [Lit newline; Lit bar] ;;
  print [Lit "🔧 "; Lit message] ;;
  print [Lit bar].

Definition print_success (message : line) : Method unit := print (Lit "✅ " :: message).
Definition print_error (message : line) : Method unit := print (Lit "❌ " :: message).
Definition print_info (message : line) : Method unit := print (Lit "ℹ️  " :: message).

(** [os.getenv(k1) or os.getenv(k2)]. *)
Definition getenv_or {S} (k1 k2 : string) : M S pyval :=
  a ← getenv k1;
  if truthy a then mret a else getenv k2.

Definition found_or_missing (v : pyval) : fragment :=
  Lit (if truthy v then "✅ Found" else "❌ Missing").

Section Methods.
Variable W : World.

Definition test_environment_variables : Method pyval :=
  print_header "Testing Environment Variables" ;;
  load_dotenv W ;;
  client_id ← getenv_or "CLIENT_ID" "SPOTIFY_CLIENT_ID";
  client_secret ← getenv_or "CLIENT_SECRET" "SPOTIFY_CLIENT_SECRET";
  print [Lit "CLIENT_ID: "; found_or_missing client_id] ;;
  print [Lit "CLIENT_SECRET: "; found_or_missing client_secret] ;;
  if truthy client_id && truthy client_secret then
    print_success [Lit "All environment variables are set!"] ;;
    set_result "environment" true ;;
    mret (PBool true)
  else
    print_error [Lit "Missing environment variables!"] ;;
    print_info [Lit "Please check your .env file"] ;;
    mret (PBool false).

Definition test_authentication : Method pyval :=
  print_header "Testing Authentication" ;;
  try_except
    (client_id ← getenv_or "CLIENT_ID" "SPOTIFY_CLIENT_ID";
     client_secret ← getenv_or "CLIENT_SECRET" "SPOTIFY_CLIENT_SECRET";
     auth_manager ← SpotifyClientCredentials W client_id client_secret;
     c ← Spotify W auth_manager 10 (Some 1%Z);
     set_sp c ;;
     print_success [Lit "Authentication successful!"] ;;
     set_result "authentication" true ;;
     mret (PBool true))
    (fun e =>
       print_error [Lit "Authentication failed: "; Exc e] ;;
       mret (PBool false)).

Definition test_api_connection : Method pyval :=
  print_header "Testing API Connection" ;;
  try_except
    (self_sp ← get_sp;
     results ← invoke W self_sp "search" (Search "artist:Ed Sheeran" "track" 1);
     has_tracks ← (if truthy results then eval (contains "tracks" results) else mret false);
     if has_tracks : bool then
       track ← eval (subscript results [K "tracks"; K "items"; I 0]);
       print_success [Lit "API connection successful!"] ;;
       name ← eval (subscript track [K "name"]);
       print [Lit "   Test track: "; Val name] ;;
       artist ← eval (subscript track [K "artists"; I 0; K "name"]);
       print [Lit "   Artist: "; Val artist] ;;
       duration ← eval (subscript track [K "duration_ms"]);
       print [Lit "   Duration: "; Val duration; Lit "ms"] ;;
       set_result "api_connection" true ;;
       mret (PBool true)
     else
       print_error [Lit "No results returned from API"] ;;
       mret (PBool false))
    (fun e =>
       print_error [Lit "API connection test failed: "; Exc e] ;;
       mret (PBool false)).

Definition playlist_id : string := "37i9dQZEVXbMDoHDwVN2tF".

(** The body of the [for i, item in enumerate(..)] loop over the sample
    tracks. *)
Definition print_sample (numbered : nat * pyval) : Method unit :=
  let '(i, item) := numbered in
  track ← eval (subscript item [K "track"]);
  name ← eval (subscript track [K "name"]);
  artist ← eval (subscript track [K "artists"; I 0; K "name"]);
  print [Lit "     "; Val (PInt (Z.of_nat i + 1)); Lit ". "; Val name;
         Lit " - "; Val artist].

(** The [try] block of [test_playlist_access]. *)
Definition playlist_access_body : Method pyval :=
  self_sp ← get_sp;
  playlist ← invoke W self_sp "playlist" (Playlist playlist_id);
  if truthy playlist then
    print_success [Lit "Playlist access successful!"] ;;
    name ← eval (subscript playlist [K "name"]);
    print [Lit "   Playlist: "; Val name] ;;
    description ← eval (dict_get playlist "description" (PStr "No description"));
    print [Lit "   Description: "; Val description] ;;
    followers ← eval (subscript playlist [K "followers"; K "total"]);
    followers_text ← eval (numeric_format followers ",");
    print [Lit "   Followers: "; followers_text] ;;
    total ← eval (subscript playlist [K "tracks"; K "total"]);
    print [Lit "   Tracks: "; Val total] ;;
    public ← eval (subscript playlist [K "public"]);
    print [Lit "   Public: "; Val public] ;;
    self_sp ← get_sp;
    tracks ← invoke W self_sp "playlist_tracks" (PlaylistTracks playlist_id 3);
    has_items ← (if truthy tracks then eval (contains "items" tracks) else mret false);
    (if has_items : bool then
       print [Lit "   Sample tracks:"] ;;
       items ← eval (subscript tracks [K "items"]);
       first3 ← eval (slice_to items 3);
       for_each (enumerate first3) print_sample
     else mret tt) ;;
    set_result "playlist_access" true ;;
    mret (PBool true)
  else
    mret PNone.

Definition test_playlist_access : Method pyval :=
  print_header "Testing Playlist Access" ;;
  try_except
    playlist_access_body
    (fun e =>
       print_error [Lit "Playlist access test failed: "; Exc e] ;;
       mret (PBool false)).

(** The four dictionaries [{"q": .., "type": ..}]. *)
Definition search_queries : list (string * string) :=
  [("Dua Lipa", "artist"); ("Blinding Lights", "track");
   ("Today's Top Hits", "playlist"); ("Future Nostalgia", "album")].

(** The [print] of one search hit, by entity type. *)
Definition print_item (type : string) (item : pyval) : Method unit :=
  if String.eqb type "artist" then
    name ← eval (subscript item [K "name"]);
    followers ← eval (subscript item [K "followers"; K "total"]);
    followers_text ← eval (numeric_format followers ",");
    print [Lit "   Artist: "; Val name; Lit " - "; followers_text; Lit " followers"]
  else if String.eqb type "track" then
    name ← eval (subscript item [K "name"]);
    artist ← eval (subscript item [K "artists"; I 0; K "name"]);
    print [Lit "   Track: "; Val name; Lit " - "; Val artist]
  else if String.eqb type "playlist" then
    name ← eval (subscript item [K "name"]);
    owner ← eval (subscript item [K "owner"; K "display_name"]);
    print [Lit "   Playlist: "; Val name; Lit " - "; Val owner]
  else if String.eqb type "album" then
    name ← eval (subscript item [K "name"]);
    artist ← eval (subscript item [K "artists"; I 0; K "name"]);
    print [Lit "   Album: "; Val name; Lit " - "; Val artist]
  else mret tt.

(** The body of the [for query in search_queries] loop. *)
Definition search_one (query : string * string) : Method unit :=
  let '(q, type) := query in
  self_sp ← get_sp;
  results ← invoke W self_sp "search" (Search q type 1);
  has_key ← (if truthy results then eval (contains (type +:+ "s") results) else mret false);
  if has_key : bool then
    items ← eval (subscript results [K (type +:+ "s"); K "items"]);
    if truthy items then
      item ← eval (subscript items [I 0]);
      print_item type item
    else mret tt
  else mret tt.

Definition test_search_functionality : Method pyval :=
  print_header "Testing Search Functionality" ;;
  try_except
    (for_each search_queries search_one ;;
     print_success [Lit "Search functionality working!"] ;;
     set_result "search_functionality" true ;;
     mret (PBool true))
    (fun e =>
       print_error [Lit "Search functionality test failed: "; Exc e] ;;
       mret (PBool false)).

Definition test_audio_features : Method pyval :=
  print_header "Testing Audio Features" ;;
  try_except
    (self_sp ← get_sp;
     results ← invoke W self_sp "search"
                 (Search "track:Blinding Lights artist:The Weeknd" "track" 1);
     has_items ← (if truthy results
                  then items ← eval (subscript results [K "tracks"; K "items"]);
                       mret (truthy items)
                  else mret false);
     if has_items : bool then
       track_id ← eval (subscript results [K "tracks"; K "items"; I 0; K "id"]);
       self_sp ← get_sp;
       all_features ← invoke W self_sp "audio_features" (AudioFeatures [track_id]);
       features ← eval (subscript all_features [I 0]);
       if truthy features then
         print_success [Lit "Audio features access successful!"] ;;
         danceability ← eval (subscript features [K "danceability"]);
         danceability_text ← eval (numeric_format danceability ".2f");
         print [Lit "   Danceability: "; danceability_text] ;;
         energy ← eval (subscript features [K "energy"]);
         energy_text ← eval (numeric_format energy ".2f");
         print [Lit "   Energy: "; energy_text] ;;
         valence ← eval (subscript features [K "valence"]);
         valence_text ← eval (numeric_format valence ".2f");
         print [Lit "   Valence: "; valence_text] ;;
         tempo ← eval (subscript features [K "tempo"]);
         print [Lit "   Tempo: "; Val tempo; Lit " BPM"] ;;
         key ← eval (subscript features [K "key"]);
         print [Lit "   Key: "; Val key] ;;
         mode ← eval (subscript features [K "mode"]);
         print [Lit "   Mode: "; Lit (if equals_one mode then "Major" else "Minor")] ;;
         mret (PBool true)
       else mret PNone
     else mret PNone)
    (fun e =>
       print_error [Lit "Audio features test failed: "; Exc e] ;;
       mret (PBool false)).

(** One row of the summary. *)
Definition print_row (item : string * bool) : Method unit :=
  let '(test_name, result) := item in
  print [Lit "   "; Lit (ljust 20 (title (replace_char "_" " " test_name)));
         Lit " "; Lit (if result then "✅ PASS" else "❌ FAIL")].

(** The closing lines of [print_summary]: the [if passed == total] banner or
    the troubleshooting tips. *)
Definition print_verdict (all_passed : bool) : Method unit :=
  if all_passed then
    print_success [Lit "All tests passed! Your Spotify API setup is working correctly."] ;;
    print [Lit newline; Lit "🎉 You're ready to use the Spotify Agent!"]
  else
    print_error [Lit "Some tests failed. Please check your setup."] ;;
    print [Lit newline; Lit "🔧 Troubleshooting tips:"] ;;
    print [Lit "   • Verify your Client ID and Secret in .env file"] ;;
    print [Lit "   • Check your internet connection"] ;;
    print [Lit "   • Ensure your Spotify app is active in Developer Dashboard"] ;;
    print [Lit "   • Verify no typos in environment variable names"].

Definition print_summary : Method unit :=
  print_header "Test Summary" ;;
  self_results ← get_results;
  let passed := sum_values self_results in
  let total := length self_results in
  for_each self_results print_row ;;
  print [Lit newline; Lit "📊 Overall Result: "; Val (PInt (Z.of_nat passed)); Lit "/";
         Val (PInt (Z.of_nat total)); Lit " tests passed"] ;;
  print_verdict (Nat.eqb passed total).

(** The list [tests] of [run_all_tests], each bound method with its
    [__name__]. *)
Definition tests : list (string * Method pyval) :=
  [("test_environment_variables", test_environment_variables);
   ("test_authentication", test_authentication);
   ("test_api_connection", test_api_connection);
   ("test_playlist_access", test_playlist_access);
   ("test_search_functionality", test_search_functionality);
   ("test_audio_features", test_audio_features)].

(** The body of the [for test in tests] loop; the value a test returns is
    dropped. *)
Definition run_test (test : string * Method pyval) : Method unit :=
  try_except
    (test.2 ;; mret tt)
    (fun e => print_error [Lit "Test "; Lit test.1; Lit " crashed: "; Exc e]).

Definition run_tests (ts : list (string * Method pyval)) : Method unit :=
  print_header "Starting Spotify API Test Suite" ;;
  for_each ts run_test ;;
  print_summary.

Definition run_all_tests : Method unit := run_tests tests.

(** ** The module-level [quick_test] *)

Definition quick_test : M unit pyval :=
  print [Lit "🚀 Quick Spotify API Test"] ;;
  print [Lit (repeat_string "=" 30)] ;;
  try_except
    (load_dotenv W ;;
     client_id ← getenv_or "CLIENT_ID" "SPOTIFY_CLIENT_ID";
     client_secret ← getenv_or "CLIENT_SECRET" "SPOTIFY_CLIENT_SECRET";
     if negb (truthy client_id) || negb (truthy client_secret) then
       print [Lit "❌ Missing credentials in .env file"] ;;
       mret (PBool false)
     else
       auth_manager ← SpotifyClientCredentials W client_id client_secret;
       c ← Spotify W auth_manager 10 None;
       results ← request W c (Search "artist:Spotify" "playlist" 1);
       if truthy results then
         print [Lit "✅ Spotify API is working!"] ;;
         mret (PBool true)
       else
         print [Lit "❌ API returned no results"] ;;
         mret (PBool false))
    (fun e =>
       print [Lit "❌ API test failed: "; Exc e] ;;
       mret (PBool false)).

(** Runs a method on a fresh object and drops the object:
    [tester = SpotifyAPITester(); tester.method()]. *)
Definition with_tester {A} (m : Method A) : M unit A := fun '(u, p) =>
  let '(r, (_, p')) := m (init, p) in (r, (u, p')).

(** The [__main__] block, on [sys.argv]. *)
Definition main (argv : list string) : M unit unit :=
  match argv with
  | _ :: arg :: _ =>
      if String.eqb arg "quick" then quick_test ;; mret tt
      else with_tester run_all_tests
  | _ => with_tester run_all_tests
  end.
End Methods.

(** ** What the properties observe *)

Abbreviation state := (SpotifyAPITester * process)%type.

(** The five names [__init__] records. *)
Definition check_names : list string :=
  ["environment"; "authentication"; "api_connection"; "playlist_access";
   "search_functionality"].

(** [d[k]] on the result mapping. *)
Fixpoint lookup_result (k : string) (d : list (string * bool)) : option bool :=
  match d with
  | [] => None
  | (k', b) :: d' => if String.eqb k k' then Some b else lookup_result k d'
  end.

(** How many of [names] are recorded true in [d]. *)
Definition count_true (names : list string) (d : list (string * bool)) : nat :=
  length (filter (fun k => lookup_result k d = Some true) names).

(** The message of a header line printed by [print_header]. *)
Definition header_of (l : line) : option string :=
  match l with
  | [Lit mark; Lit message] => if String.eqb mark "🔧 " then Some message else None
  | _ => None
  end.

(** The two numbers of an "Overall Result" line printed by [print_summary]. *)
Definition overall_of (l : line) : option (pyval * pyval) :=
  match l with
  | [Lit _; Lit label; Val passed; Lit _; Val total; Lit _] =>
      if String.eqb label "📊 Overall Result: " then Some (passed, total) else None
  | _ => None
  end.

(** The lines of a kind that a state's standard output holds, in order. *)
Definition printed {S X} (f : line -> option X) (st : S * process) : list X :=
  omap f (stdout st.2).

(** A computation respects [R] when every run, returning or raising, takes a
    state to an [R]-related one. *)
Definition respects {S A} (R : relation (S * process)) (m : M S A) : Prop :=
  forall st, R st (exec m st).

(** Nothing of kind [f] is printed. *)
Definition silent {S X} (f : line -> option X) : relation (S * process) :=
  fun st st' => printed f st' = printed f st.

(** The result mapping is as it was. *)
Definition same_results : relation state :=
  fun st st' => results st'.1 = results st.1.

(** The result mapping is as it was, or the entry [own] was set to true. *)
Definition sets_only (own : string) : relation state :=
  fun st st' =>
    results st'.1 = results st.1 \/ results st'.1 = dict_set own true (results st.1).

(** A credential is present when one of its two names holds a non-empty
    string. *)
Definition nonempty (v : option string) : bool :=
  match v with
  | Some s => negb (String.eqb s "")
  | None => false
  end.

Definition credential_present (env : gmap string string) (k1 k2 : string) : bool :=
  nonempty (env !! k1) || nonempty (env !! k2).

Definition credentials_present (env : gmap string string) : bool :=
  credential_present env "CLIENT_ID" "SPOTIFY_CLIENT_ID"
  && credential_present env "CLIENT_SECRET" "SPOTIFY_CLIENT_SECRET".

(** The value [os.getenv(k1) or os.getenv(k2)] has in environment [env]. *)
Definition credential (env : gmap string string) (k1 k2 : string) : pyval :=
  py_or (from_option PStr PNone (env !! k1)) (from_option PStr PNone (env !! k2)).

(** The process after some lines were printed and some calls were made. *)
Definition after (p : process) (out : list line) (calls : list action) : process :=
  {| environ := environ p; stdout := stdout p ++ out; trace := trace p ++ calls |}.

Definition header_lines (message : string) : list line :=
  [[Lit newline; Lit bar]; [Lit "🔧 "; Lit message]; [Lit bar]].

(** The entry of the result mapping that a test method assigns: its own, and
    none for [test_audio_features]. *)
Definition own_entry (test_name : string) : option string :=
  if String.eqb test_name "test_environment_variables" then Some "environment"
  else if String.eqb test_name "test_authentication" then Some "authentication"
  else if String.eqb test_name "test_api_connection" then Some "api_connection"
  else if String.eqb test_name "test_playlist_access" then Some "playlist_access"
  else if String.eqb test_name "test_search_functionality" then Some "search_functionality"
  else None.

(** The state after the banner and the first [n] tests of the list. *)
Definition after_tests (W : World) (n : nat) (st : state) : state :=
  fold_left (fun s t => exec (run_test t) s) (firstn n (tests W))
    (exec (print_header "Starting Spotify API Test Suite") st).

(** The credentials [test_authentication] reads, the objects it builds from
    them, and the exception, if any, that building them raises. *)
Definition env_auth_manager (env : gmap string string) : auth_manager :=
  {| am_client_id := credential env "CLIENT_ID" "SPOTIFY_CLIENT_ID";
     am_client_secret := credential env "CLIENT_SECRET" "SPOTIFY_CLIENT_SECRET" |}.

Definition env_client (env : gmap string string) : client :=
  {| cl_auth_manager := env_auth_manager env; cl_requests_timeout := 10;
     cl_retries := Some 1%Z |}.

Definition construction_error (W : World) (env : gmap string string) : option exn :=
  match credentials_error W (am_client_id (env_auth_manager env))
                            (am_client_secret (env_auth_manager env)) with
  | Some e => Some e
  | None => spotify_error W (env_auth_manager env) 10 (Some 1%Z)
  end.

(** *** What a check needs of an answer *)

Definition holds (r : result bool) : bool :=
  match r with Ret b => b | Raise _ => false end.

(** [v[k1][k2]...] can be read without an exception. *)
Definition readable (v : pyval) (path : list key) : bool := is_ret (subscript v path).

(** The answer has a track list with a first item. *)
Definition has_first_track (v : pyval) : bool :=
  readable v [K "tracks"; K "items"; I 0].

(** What [test_api_connection] reads of the answer to its search: a
    non-empty answer with a "tracks" key, and in the first item of its list
    the three fields that are printed. *)
Definition api_connection_ok (r : result pyval) : bool :=
  match r with
  | Ret v =>
      truthy v && holds (contains "tracks" v)
      && readable v [K "tracks"; K "items"; I 0; K "name"]
      && readable v [K "tracks"; K "items"; I 0; K "artists"; I 0; K "name"]
      && readable v [K "tracks"; K "items"; I 0; K "duration_ms"]
  | Raise _ => false
  end.

(** What [test_playlist_access] reads of the playlist object: the five
    fields it prints, the follower count being a number. *)
Definition playlist_metadata_ok (playlist : pyval) : bool :=
  readable playlist [K "name"]
  && is_ret (dict_get playlist "description" (PStr "No description"))
  && match subscript playlist [K "followers"; K "total"] with
     | Ret followers => is_ret (numeric_format followers ",")
     | Raise _ => false
     end
  && readable playlist [K "tracks"; K "total"]
  && readable playlist [K "public"].

(** What it reads of one sample item. *)
Definition sample_ok (item : pyval) : bool :=
  readable item [K "track"; K "name"]
  && readable item [K "track"; K "artists"; I 0; K "name"].

(** What it reads of the answer to the nested fetch of tracks: nothing of an
    empty answer or of one without "items"; else the first three items. *)
Definition samples_ok (r : result pyval) : bool :=
  match r with
  | Ret tracks =>
      if truthy tracks then
        match contains "items" tracks with
        | Ret true =>
            match subscript tracks [K "items"] with
            | Ret items =>
                match slice_to items 3 with
                | Ret first3 => forallb sample_ok first3
                | Raise _ => false
                end
            | Raise _ => false
            end
        | Ret false => true
        | Raise _ => false
        end
      else true
  | Raise _ => false
  end.

(** A method returned [True]. *)
Definition succeeded (r : result pyval) : bool :=
  match r with
  | Ret (PBool true) => true
  | _ => false
  end.

(** The call returned a value that tests false ([None], an empty object). *)
Definition empty_answer (r : result pyval) : bool :=
  match r with
  | Ret v => negb (truthy v)
  | Raise _ => false
  end.

(** What [test_search_functionality] reads of a hit, by entity type. *)
Definition item_ok (type : string) (item : pyval) : bool :=
  if String.eqb type "artist" then
    readable item [K "name"]
    && match subscript item [K "followers"; K "total"] with
       | Ret followers => is_ret (numeric_format followers ",")
       | Raise _ => false
       end
  else if String.eqb type "track" then
    readable item [K "name"] && readable item [K "artists"; I 0; K "name"]
  else if String.eqb type "playlist" then
    readable item [K "name"] && readable item [K "owner"; K "display_name"]
  else if String.eqb type "album" then
    readable item [K "name"] && readable item [K "artists"; I 0; K "name"]
  else true.

(** What one iteration of its loop needs of the answer: nothing of an empty
    answer, of one without the plural key, or of one whose item list is
    empty; else a readable first item. *)
Definition search_one_ok (type : string) (r : result pyval) : bool :=
  match r with
  | Ret results =>
      if truthy results then
        match contains (type +:+ "s") results with
        | Ret true =>
            match subscript results [K (type +:+ "s"); K "items"] with
            | Ret items =>
                if truthy items then
                  match subscript items [I 0] with
                  | Ret item => item_ok type item
                  | Raise _ => false
                  end
                else true
            | Raise _ => false
            end
        | Ret false => true
        | Raise _ => false
        end
      else true
  | Raise _ => false
  end.

(** The answer of the service to a method call on [self.sp], which raises
    AttributeError when no client was built. *)
Definition answer (W : World) (self_sp : option client) (calls : list action)
    (method : string) (r : call) : result pyval :=
  match self_sp with
  | Some c => remote W calls c r
  | None => Raise (AttributeError method)
  end.

(** The request a method call on [self.sp] puts on the trace. *)
Definition sent (self_sp : option client) (r : call) : list action :=
  match self_sp with
  | Some c => [Request c r]
  | None => []
  end.

(** What [test_playlist_access] needs: a non-empty playlist object whose
    metadata can be printed, and a nested fetch that returns and whose
    samples can be printed. *)
Definition playlist_access_ok (W : World) (self_sp : option client)
    (calls : list action) : bool :=
  match answer W self_sp calls "playlist" (Playlist playlist_id) with
  | Ret playlist =>
      truthy playlist && playlist_metadata_ok playlist
      && samples_ok (answer W self_sp (calls ++ sent self_sp (Playlist playlist_id))
                       "playlist_tracks" (PlaylistTracks playlist_id 3))
  | Raise _ => false
  end.

(** The loop over [queries] completes: every iteration, asked after the
    requests of the ones before it, gets an answer it can read. *)
Fixpoint searches_ok (W : World) (self_sp : option client) (calls : list action)
    (queries : list (string * string)) : bool :=
  match queries with
  | [] => true
  | (q, type) :: queries' =>
      search_one_ok type (answer W self_sp calls "search" (Search q type 1))
      && searches_ok W self_sp (calls ++ sent self_sp (Search q type 1)) queries'
  end.

(** The requests of a completed loop. *)
Definition searches_sent (self_sp : option client) (queries : list (string * string))
    : list action :=
  flat_map (fun '(q, type) => sent self_sp (Search q type 1)) queries.

(** The entity types of the four queries. *)
Definition entity_types : list string := ["artist"; "track"; "playlist"; "album"].

(** ** Sample worlds, for concrete runs *)

Definition empty_process : process := {| environ := ∅; stdout := []; trace := [] |}.

Definition sample_artist : pyval :=
  PDict [("name", PStr "The Weeknd"); ("followers", PDict [("total", PInt 95000000)])].

Definition sample_track : pyval :=
  PDict [("id", PStr "0VjIjW4GlUZAMYd2vXMi3b"); ("name", PStr "Blinding Lights");
         ("artists", PList [sample_artist]); ("duration_ms", PInt 200040);
         ("followers", PDict [("total", PInt 95000000)]);
         ("owner", PDict [("display_name", PStr "Spotify")])].

(** A search answer with one hit under the plural of the entity type. *)
Definition one_hit (type : string) (item : pyval) : pyval :=
  PDict [(type +:+ "s", PDict [("items", PList [item])])].

(** A search answer with no hit. *)
Definition no_hit (type : string) : pyval :=
  PDict [(type +:+ "s", PDict [("items", PList [])])].

Definition sample_playlist : pyval :=
  PDict [("name", PStr "Top 50 - Global"); ("description", PStr "Daily update");
         ("followers", PDict [("total", PInt 17000000)]);
         ("tracks", PDict [("total", PInt 50)]); ("public", PBool true)].

Definition sample_playlist_tracks : pyval :=
  PDict [("items", PList [PDict [("track", sample_track)]; PDict [("track", sample_track)]])].

Definition sample_features : pyval :=
  PDict [("danceability", PFloat (514 # 1000)); ("energy", PFloat (73 # 100));
         ("valence", PFloat (334 # 1000)); ("tempo", PFloat (171 # 1));
         ("key", PInt 1); ("mode", PInt 1)].

Definition dotenv_with_credentials : gmap string string :=
  {[ "CLIENT_ID" := "3f1c"; "CLIENT_SECRET" := "9a7e" ]}.

(** Valid credentials, network reachable, well-formed answers. *)
Definition working_world : World := {|
  dotenv := Ret dotenv_with_credentials;
  credentials_error := fun _ _ => None;
  spotify_error := fun _ _ _ => None;
  remote := fun _ _ r =>
    match r with
    | Search _ type _ => Ret (one_hit type sample_track)
    | Playlist _ => Ret sample_playlist
    | PlaylistTracks _ _ => Ret sample_playlist_tracks
    | AudioFeatures _ => Ret (PList [sample_features])
    end
|}.

(** As [working_world], but every search finds nothing. *)
Definition no_hits_world : World := {|
  dotenv := Ret dotenv_with_credentials;
  credentials_error := fun _ _ => None;
  spotify_error := fun _ _ _ => None;
  remote := fun _ _ r =>
    match r with
    | Search _ type _ => Ret (no_hit type)
    | Playlist _ => Ret sample_playlist
    | PlaylistTracks _ _ => Ret sample_playlist_tracks
    | AudioFeatures _ => Ret (PList [sample_features])
    end
|}.

(** No .env file and no credentials: the authenticator refuses. *)
Definition no_credentials_world : World := {|
  dotenv := Ret ∅;
  credentials_error := fun _ _ => Some (LibraryError "No client_id");
  spotify_error := fun _ _ _ => None;
  remote := fun _ _ _ => Raise (LibraryError "unreachable")
|}.

(** A track item that lists no artist. *)
Definition track_without_artists : pyval :=
  PDict [("id", PStr "7qiZfU4dY1lWllzX7mPBI3"); ("name", PStr "Shape of You");
         ("artists", PList []); ("duration_ms", PInt 233712)].

(** As [working_world], but the hits of a search list no artist. *)
Definition no_artist_world : World := {|
  dotenv := Ret dotenv_with_credentials;
  credentials_error := fun _ _ => None;
  spotify_error := fun _ _ _ => None;
  remote := fun _ _ r =>
    match r with
    | Search _ type _ => Ret (one_hit type track_without_artists)
    | Playlist _ => Ret sample_playlist
    | PlaylistTracks _ _ => Ret sample_playlist_tracks
    | AudioFeatures _ => Ret (PList [sample_features])
    end
|}.

(** The playlist is served, then the network drops: the nested fetch of
    tracks raises. *)
Definition dropped_connection_world : World := {|
  dotenv := Ret dotenv_with_credentials;
  credentials_error := fun _ _ => None;
  spotify_error := fun _ _ _ => None;
  remote := fun _ _ r =>
    match r with
    | Search _ type _ => Ret (one_hit type sample_track)
    | Playlist _ => Ret sample_playlist
    | PlaylistTracks _ _ => Raise (LibraryError "Connection reset by peer")
    | AudioFeatures _ => Ret (PList [sample_features])
    end
|}.

(** The playlist endpoint answers with an empty body, which the client
    library hands over as [None]. *)
Definition empty_playlist_world : World := {|
  dotenv := Ret dotenv_with_credentials;
  credentials_error := fun _ _ => None;
  spotify_error := fun _ _ _ => None;
  remote := fun _ _ r =>
    match r with
    | Search _ type _ => Ret (one_hit type sample_track)
    | Playlist _ => Ret PNone
    | PlaylistTracks _ _ => Ret sample_playlist_tracks
    | AudioFeatures _ => Ret (PList [sample_features])
    end
|}.

(** Audio features whose danceability is an integer too large for a float. *)
Definition oversized_features : pyval :=
  PDict [("danceability", PInt (10 ^ 400)); ("energy", PFloat (73 # 100));
         ("valence", PFloat (334 # 1000)); ("tempo", PFloat (171 # 1));
         ("key", PInt 1); ("mode", PInt 1)].

(** As [working_world], but the service answers with [oversized_features]. *)
Definition oversized_score_world : World := {|
  dotenv := Ret dotenv_with_credentials;
  credentials_error := fun _ _ => None;
  spotify_error := fun _ _ _ => None;
  remote := fun _ _ r =>
    match r with
    | Search _ type _ => Ret (one_hit type sample_track)
    | Playlist _ => Ret sample_playlist
    | PlaylistTracks _ _ => Ret sample_playlist_tracks
    | AudioFeatures _ => Ret (PList [oversized_features])
    end
|}.

(** As [working_world], but the .env file cannot be decoded. *)
Definition unreadable_dotenv_world : World := {|
  dotenv := Raise ValueError;
  credentials_error := fun _ _ => None;
  spotify_error := fun _ _ _ => None;
  remote := fun _ _ r =>
    match r with
    | Search _ type _ => Ret (one_hit type sample_track)
    | Playlist _ => Ret sample_playlist
    | PlaylistTracks _ _ => Ret sample_playlist_tracks
    | AudioFeatures _ => Ret (PList [sample_features])
    end
|}.

(** The same .env file that cannot be read, and a service that rejects the
    credentials when the authenticator is built. *)
Definition unreadable_dotenv_rejecting_world : World := {|
  dotenv := Raise ValueError;
  credentials_error := fun _ _ => Some (LibraryError "invalid_client");
  spotify_error := fun _ _ _ => None;
  remote := fun _ _ _ => Raise (LibraryError "unauthorized")
|}.

(** A process that holds both credentials in its environment. *)
Definition process_with_credentials : process :=
  {| environ := dotenv_with_credentials; stdout := []; trace := [] |}.

Definition sample_client : client := {|
  cl_auth_manager := {| am_client_id := PStr "3f1c"; am_client_secret := PStr "9a7e" |};
  cl_requests_timeout := 10;
  cl_retries := Some 1%Z
|}.

(** A fresh object whose client handle is already set. *)
Definition authenticated : SpotifyAPITester :=
  {| results := results init; sp := Some sample_client |}.

(** The object and process that the first two tests leave in world [W],
    started on a fresh object with an empty environment. *)
Definition after_authentication (W : World) : state :=
  exec (test_authentication W)
    (exec (test_environment_variables W) (init, empty_process)).

(** A method returned [True] or [False]. *)
Definition returned_bool (r : result pyval) : bool :=
  match r with
  | Ret (PBool _) => true
  | _ => false
  end.

#[global] Arguments bar : simpl never.
#[global] Arguments enumerate : simpl never.
#[global] Arguments print_sample : simpl never.
#[global] Arguments truthy : simpl never.
#[global] Arguments getitem : simpl never.
#[global] Arguments getindex : simpl never.
#[global] Arguments slice_to : simpl never.
#[global] Arguments contains : simpl never.
#[global] Arguments dict_get : simpl never.
#[global] Arguments numeric_format : simpl never.

(** ** Further observations *)

(** What [test_audio_features] prints of a features object: three numbers
    with two decimals, then tempo, key and mode. *)
Definition features_ok (features : pyval) : bool :=
  match subscript features [K "danceability"] with
  | Ret x => is_ret (numeric_format x ".2f")
  | Raise _ => false
  end
  && match subscript features [K "energy"] with
     | Ret x => is_ret (numeric_format x ".2f")
     | Raise _ => false
     end
  && match subscript features [K "valence"] with
     | Ret x => is_ret (numeric_format x ".2f")
     | Raise _ => false
     end
  && readable features [K "tempo"]
  && readable features [K "key"]
  && readable features [K "mode"].

Definition features_search : call :=
  Search "track:Blinding Lights artist:The Weeknd" "track" 1.

(** The identifier of the first hit of the search of [test_audio_features],
    when the answer is non-empty, lists a hit and the hit has an "id". *)
Definition first_track_id (r : result pyval) : option pyval :=
  match r with
  | Ret results =>
      if truthy results then
        match subscript results [K "tracks"; K "items"] with
        | Ret items =>
            if truthy items then
              match subscript results [K "tracks"; K "items"; I 0; K "id"] with
              | Ret track_id => Some track_id
              | Raise _ => None
              end
            else None
        | Raise _ => None
        end
      else None
  | Raise _ => None
  end.

(** The requests of [test_audio_features]: its search, and the features of
    the first hit when there is one. *)
Definition audio_features_requests (W : World) (self_sp : option client)
    (calls : list action) : list action :=
  sent self_sp features_search
  ++ match first_track_id (answer W self_sp calls "search" features_search) with
     | Some track_id => sent self_sp (AudioFeatures [track_id])
     | None => []
     end.

(** What [test_audio_features] needs to return [True]. *)
Definition audio_features_ok (W : World) (self_sp : option client)
    (calls : list action) : bool :=
  match first_track_id (answer W self_sp calls "search" features_search) with
  | Some track_id =>
      match answer W self_sp (calls ++ sent self_sp features_search)
              "audio_features" (AudioFeatures [track_id]) with
      | Ret all_features =>
          match subscript all_features [I 0] with
          | Ret features => truthy features && features_ok features
          | Raise _ => false
          end
      | Raise _ => false
      end
  | None => false
  end.

(** The client [quick_test] builds: timeout 10, the library's retries. *)
Definition quick_client (env : gmap string string) : client :=
  {| cl_auth_manager := env_auth_manager env; cl_requests_timeout := 10;
     cl_retries := None |}.

Definition quick_search : call := Search "artist:Spotify" "playlist" 1.

(** The library calls of a [quick_test] that reaches its search. *)
Definition quick_calls (env : gmap string string) : list action :=
  [NewCredentials (am_client_id (env_auth_manager env))
     (am_client_secret (env_auth_manager env));
   NewSpotify (env_auth_manager env) 10 None;
   Request (quick_client env) quick_search].

(** What [quick_test] needs to return [True]: a .env file that loads, both
    credentials, two constructors that do not raise, and any non-empty answer
    to its search. *)
Definition quick_test_ok (W : World) (env : gmap string string)
    (calls : list action) : bool :=
  is_ret (dotenv W)
  && credentials_present env
  && match credentials_error W (am_client_id (env_auth_manager env))
             (am_client_secret (env_auth_manager env)) with
     | Some _ => false
     | None =>
         match spotify_error W (env_auth_manager env) 10 None with
         | Some _ => false
         | None =>
             match remote W (calls ++ [NewCredentials (am_client_id (env_auth_manager env))
                                         (am_client_secret (env_auth_manager env));
                                       NewSpotify (env_auth_manager env) 10 None])
                     (quick_client env) quick_search with
             | Ret results => truthy results
             | Raise _ => false
             end
         end
     end.

(** The two constructor calls of a successful [test_authentication]. *)
Definition authentication_calls (env : gmap string string) : list action :=
  [NewCredentials (am_client_id (env_auth_manager env))
     (am_client_secret (env_auth_manager env));
   NewSpotify (env_auth_manager env) 10 (Some 1%Z)].

(** The actions the script may ask of the libraries: the two constructors
    with timeout 10, a search with limit 1, the fixed playlist, three of its
    tracks, the audio features of one track. *)
Definition allowed (a : action) : bool :=
  match a with
  | NewCredentials _ _ => true
  | NewSpotify _ requests_timeout _ => Z.eqb requests_timeout 10
  | Request _ (Search _ _ limit) => Z.eqb limit 1
  | Request _ (Playlist id) => String.eqb id playlist_id
  | Request _ (PlaylistTracks id limit) => String.eqb id playlist_id && Z.eqb limit 3
  | Request _ (AudioFeatures [_]) => true
  | Request _ (AudioFeatures _) => false
  end.

Definition is_request (a : action) : bool :=
  match a with
  | Request _ _ => true
  | _ => false
  end.

(** The trace grew, by actions that satisfy [P] only. *)
Definition extends_with {S} (P : action -> bool) : relation (S * process) :=
  fun st st' =>
    exists calls, trace st'.2 = trace st.2 ++ calls /\ forallb P calls = true.

(** The verdict a closing line of [print_summary] announces. *)
Definition verdict_of (l : line) : option bool :=
  match l with
  | [Lit mark; Lit message] =>
      if String.eqb mark "✅ "
         && String.eqb message
              "All tests passed! Your Spotify API setup is working correctly."
      then Some true
      else if String.eqb mark "❌ "
              && String.eqb message "Some tests failed. Please check your setup."
      then Some false
      else None
  | _ => None
  end.

(** The label and status of a row printed by [print_row]. *)
Definition row_of (l : line) : option (string * bool) :=
  match l with
  | [Lit indent; Lit label; Lit gap; Lit status] =>
      if String.eqb indent "   " && String.eqb gap " "
      then Some (label, String.eqb status "✅ PASS")
      else None
  | _ => None
  end.

(** The number of a sample-track line printed by [print_sample]. *)
Definition sample_of (l : line) : option pyval :=
  match l with
  | [Lit indent; Val number; Lit _; Val _; Lit _; Val _] =>
      if String.eqb indent "     " then Some number else None
  | _ => None
  end.

(** [sys.argv[1] == "quick"], when there is an [argv[1]]. *)
Definition quick_requested (argv : list string) : bool :=
  match nth_error argv 1 with
  | Some arg => String.eqb arg "quick"
  | None => false
  end.

Definition row_line (item : string * bool) : line :=
  [Lit "   "; Lit (ljust 20 (title (replace_char "_" " " item.1))); Lit " ";
   Lit (if item.2 then "✅ PASS" else "❌ FAIL")].

Definition overall_line (passed total : nat) : line :=
  [Lit newline; Lit "📊 Overall Result: "; Val (PInt (Z.of_nat passed)); Lit "/";
   Val (PInt (Z.of_nat total)); Lit " tests passed"].

Definition verdict_lines (all_passed : bool) : list line :=
  if all_passed then
    [[Lit "✅ "; Lit "All tests passed! Your Spotify API setup is working correctly."];
     [Lit newline; Lit "🎉 You're ready to use the Spotify Agent!"]]
  else
    [[Lit "❌ "; Lit "Some tests failed. Please check your setup."];
     [Lit newline; Lit "🔧 Troubleshooting tips:"];
     [Lit "   • Verify your Client ID and Secret in .env file"];
     [Lit "   • Check your internet connection"];
     [Lit "   • Ensure your Spotify app is active in Developer Dashboard"];
     [Lit "   • Verify no typos in environment variable names"]].

Definition summary_lines (d : list (string * bool)) : list line :=
  header_lines "Test Summary" ++ map row_line d
  ++ [overall_line (sum_values d) (length d)]
  ++ verdict_lines (Nat.eqb (sum_values d) (length d)).

Definition authentication_attempt (W : World) (env : gmap string string) : list action :=
  NewCredentials (am_client_id (env_auth_manager env))
    (am_client_secret (env_auth_manager env))
  :: match credentials_error W (am_client_id (env_auth_manager env))
             (am_client_secret (env_auth_manager env)) with
     | Some _ => []
     | None => [NewSpotify (env_auth_manager env) 10 (Some 1%Z)]
     end.

Definition playlist_requests (W : World) (self_sp : option client)
    (calls : list action) : list action :=
  sent self_sp (Playlist playlist_id)
  ++ match answer W self_sp calls "playlist" (Playlist playlist_id) with
     | Ret playlist =>
         if truthy playlist && playlist_metadata_ok playlist
         then sent self_sp (PlaylistTracks playlist_id 3)
         else []
     | Raise _ => []
     end.

Definition expected_results (W : World) (p : process) : list (string * bool) :=
  let env := environ p ∪ dotenv_file W in
  let authenticated := match construction_error W env with
                       | None => true
                       | Some _ => false
                       end in
  let self_sp := if authenticated then Some (env_client env) else None in
  let search := Search "artist:Ed Sheeran" "track" 1 in
  let calls2 := trace p ++ authentication_attempt W env in
  let calls3 := calls2 ++ sent self_sp search in
  let calls4 := calls3 ++ playlist_requests W self_sp calls3 in
  [("environment", is_ret (dotenv W) && credentials_present env);
   ("authentication", authenticated);
   ("api_connection", api_connection_ok (answer W self_sp calls2 "search" search));
   ("playlist_access", playlist_access_ok W self_sp calls3);
   ("search_functionality", searches_ok W self_sp calls4 search_queries)].

(** The requests [rs], sent on the client of the handle, if there is one. *)
Definition on_client (self_sp : option client) (rs : list call) : list action :=
  match self_sp with
  | Some c => map (Request c) rs
  | None => []
  end.

(** * Properties *)

(** ** Running computations *)

Lemma exec_bind {S A B} (m : M S A) (f : A -> M S B) st :
  exec (m ≫= f) st =
  match m st with
  | (Ret a, st') => exec (f a) st'
  | (Raise _, st') => st'
  end.
Proof. unfold exec, mbind, M_bind. by destruct (m st) as [[a|e] st']. Qed.

Lemma print_run {S} (l : line) (s : S) p :
  print l (s, p) = (Ret tt, (s, after p [l] [])).
Proof. unfold print, after. by rewrite app_nil_r. Qed.

Lemma print_header_run message s p :
  print_header message (s, p) = (Ret tt, (s, after p (header_lines message) [])).
Proof.
  unfold print_header, after, header_lines, mbind, M_bind, print. cbn.
  by rewrite app_nil_r, <- !app_assoc.
Qed.

(** ** Relations that every step of a computation respects *)

Section Respects.
Context {S : Type} (R : relation (S * process)) `{!PreOrder R}.

Lemma respects_ret {A} (a : A) : respects R (mret a).
Proof. intros st. unfold exec; cbn. reflexivity. Qed.

Lemma respects_raise {A} e : respects R (raise e : M S A).
Proof. intros st. unfold exec; cbn. reflexivity. Qed.

Lemma respects_eval {A} (r : result A) : respects R (eval r).
Proof. intros st. unfold exec; cbn. reflexivity. Qed.

Lemma respects_bind {A B} (m : M S A) (f : A -> M S B) :
  respects R m -> (forall a, respects R (f a)) -> respects R (m ≫= f).
Proof.
  intros Hm Hf st. rewrite exec_bind.
  specialize (Hm st). unfold exec in Hm.
  destruct (m st) as [[a|e] st']; cbn in Hm; [|done].
  etransitivity; [exact Hm|apply Hf].
Qed.

Lemma respects_try {A} (m : M S A) h :
  respects R m -> (forall e, respects R (h e)) -> respects R (try_except m h).
Proof.
  intros Hm Hh st. specialize (Hm st). unfold exec, try_except in *.
  destruct (m st) as [[a|e] st']; cbn in *; [done|].
  etransitivity; [exact Hm|apply Hh].
Qed.

Lemma respects_for {A} (l : list A) (body : A -> M S unit) :
  (forall x, respects R (body x)) -> respects R (for_each l body).
Proof.
  intros Hbody. induction l as [|x l IH]; cbn [for_each].
  - apply respects_ret.
  - apply respects_bind; [apply Hbody|intros _; exact IH].
Qed.

Lemma respects_getenv k : respects R (getenv k).
Proof. intros [s p]. unfold exec; cbn. reflexivity. Qed.

Lemma respects_getenv_or k1 k2 : respects R (getenv_or k1 k2).
Proof.
  apply respects_bind; [apply respects_getenv|].
  intros a. destruct (truthy a); [apply respects_ret|apply respects_getenv].
Qed.
End Respects.

#[global] Instance silent_preorder {S X} (f : line -> option X) :
  PreOrder (silent (S:=S) f).
Proof. split; [by intros st|intros a b c; unfold silent; congruence]. Qed.

#[global] Instance same_results_preorder : PreOrder same_results.
Proof. split; [by intros st|intros a b c; unfold same_results; congruence]. Qed.

Lemma dict_set_idem k b d : dict_set k b (dict_set k b d) = dict_set k b d.
Proof.
  induction d as [|[k' b'] d IH]; cbn.
  - by rewrite String.eqb_refl.
  - destruct (String.eqb k k') eqn:E; cbn; rewrite E; [done|by rewrite IH].
Qed.

#[global] Instance sets_only_preorder own : PreOrder (sets_only own).
Proof.
  split; [by left|].
  intros a b c [H1|H1] [H2|H2]; unfold sets_only; rewrite H2, H1;
    rewrite ?dict_set_idem; auto.
Qed.

(** *** Primitives *)

Ltac prim_respects :=
  let s := fresh "s" in
  let p := fresh "p" in
  intros [s p];
  unfold exec, silent, same_results, sets_only, printed,
    print, load_dotenv, record, request, get_sp, set_sp, get_results, set_result;
  try match goal with |- context [dotenv ?W] => destruct (dotenv W) end;
  cbn; rewrite ?omap_app; cbn;
  repeat (match goal with x : fragment |- _ => destruct x end; cbn);
  rewrite ?app_nil_r; auto.

Ltac respects_step :=
  match goal with
  | |- respects _ (mbind _ _) => apply respects_bind; [apply _| |intros ?]
  | |- respects _ (try_except _ _) => apply respects_try; [apply _| |intros ?]
  | |- respects _ (for_each _ _) => apply respects_for; [apply _|intros ?]
  | |- respects _ (mret _) => apply respects_ret; apply _
  | |- respects _ (raise _) => apply respects_raise; apply _
  | |- respects _ (eval _) => apply respects_eval; apply _
  | |- respects _ (getenv_or _ _) => apply respects_getenv_or; apply _
  | |- respects _ (if ?c then _ else _) => destruct c
  | |- respects _ (match ?x with _ => _ end) => destruct x
  | |- respects _ _ => solve [prim_respects]
  end.

Ltac respects_all :=
  unfold test_environment_variables, test_authentication, test_api_connection,
    test_playlist_access, playlist_access_body, test_search_functionality,
    test_audio_features,
    print_summary, print_verdict, run_test, search_one, print_item, print_row,
    print_sample,
    SpotifyClientCredentials, Spotify, invoke,
    print_header, print_success, print_error, print_info, found_or_missing;
  repeat respects_step.

(** *** Header lines: a method prints its own header and no other *)

Lemma header_printed message (st : state) :
  printed header_of (exec (print_header message) st) = printed header_of st ++ [message].
Proof.
  destruct st as [s p]. unfold exec. rewrite print_header_run.
  unfold printed, after, header_lines; cbn. by rewrite omap_app.
Qed.

Lemma after_header {A} message (m : Method A) (st : state) :
  exec (print_header message ;; m) st = exec m (exec (print_header message) st).
Proof.
  destruct st as [s p]. rewrite exec_bind.
  unfold exec. by rewrite print_header_run.
Qed.

Lemma prints_own_header {A} message (m : Method A) (st : state) :
  respects (silent header_of) m ->
  printed header_of (exec (print_header message ;; m) st)
  = printed header_of st ++ [message].
Proof. intros Hm. rewrite after_header, <- header_printed. apply Hm. Qed.

Section Headers.
Variable W : World.

Lemma test_environment_variables_header st :
  printed header_of (exec (test_environment_variables W) st)
  = printed header_of st ++ ["Testing Environment Variables"].
Proof. apply prints_own_header. respects_all. Qed.

Lemma test_authentication_header st :
  printed header_of (exec (test_authentication W) st)
  = printed header_of st ++ ["Testing Authentication"].
Proof. apply prints_own_header. respects_all. Qed.

Lemma test_api_connection_header st :
  printed header_of (exec (test_api_connection W) st)
  = printed header_of st ++ ["Testing API Connection"].
Proof. apply prints_own_header. respects_all. Qed.

Lemma test_playlist_access_header st :
  printed header_of (exec (test_playlist_access W) st)
  = printed header_of st ++ ["Testing Playlist Access"].
Proof. apply prints_own_header. respects_all. Qed.

Lemma test_search_functionality_header st :
  printed header_of (exec (test_search_functionality W) st)
  = printed header_of st ++ ["Testing Search Functionality"].
Proof. apply prints_own_header. respects_all. Qed.

Lemma test_audio_features_header st :
  printed header_of (exec (test_audio_features W) st)
  = printed header_of st ++ ["Testing Audio Features"].
Proof. apply prints_own_header. respects_all. Qed.

Lemma print_summary_header st :
  printed header_of (exec print_summary st) = printed header_of st ++ ["Test Summary"].
Proof. apply prints_own_header. respects_all. Qed.
End Headers.

(** ** C1: the runner *)

Lemma for_each_total {S A} (l : list A) (body : A -> M S unit) st :
  (forall x st', (body x st').1 = Ret tt) ->
  for_each l body st = (Ret tt, fold_left (fun s x => exec (body x) s) l st).
Proof.
  intros Hbody. revert st. induction l as [|x l IH]; intros st; cbn; [done|].
  unfold mbind, M_bind. specialize (Hbody x st). unfold exec at 2.
  destruct (body x st) as [r st']; cbn in *. subst r. apply IH.
Qed.

Lemma run_test_run name (t : Method pyval) st :
  run_test (name, t) st =
  match t st with
  | (Ret _, st') => (Ret tt, st')
  | (Raise e, st') =>
      (Ret tt, exec (print_error [Lit "Test "; Lit name; Lit " crashed: "; Exc e]) st')
  end.
Proof.
  unfold run_test, try_except, mbind, M_bind; cbn.
  destruct (t st) as [[v|e] [s p]]; [done|].
  unfold print_error, exec. by rewrite print_run.
Qed.

Lemma run_test_returns t st : (run_test t st).1 = Ret tt.
Proof.
  destruct t as [name t]. rewrite run_test_run.
  by destruct (t st) as [[v|e] st'].
Qed.

Lemma print_row_returns item st : (print_row item st).1 = Ret tt.
Proof. destruct item as [k b], st as [s p]. unfold print_row. by rewrite print_run. Qed.

Lemma print_summary_returns st : (print_summary st).1 = Ret tt.
Proof.
  destruct st as [s p]. unfold print_summary, mbind, M_bind.
  rewrite print_header_run. cbn.
  rewrite (for_each_total _ _ _ print_row_returns).
  destruct (fold_left _ _ _) as [s' p']. rewrite print_run.
  unfold print_verdict, mbind, M_bind.
  destruct (Nat.eqb _ _); unfold print_success, print_error;
    by rewrite !print_run.
Qed.

Lemma returns_unit {S} (m : M S unit) st : (m st).1 = Ret tt -> m st = (Ret tt, exec m st).
Proof. unfold exec. destruct (m st) as [r st']; cbn. by intros ->. Qed.

Lemma run_tests_run ts st :
  run_tests ts st =
  (Ret tt,
   exec print_summary
     (fold_left (fun s t => exec (run_test t) s) ts
        (exec (print_header "Starting Spotify API Test Suite") st))).
Proof.
  destruct st as [s p]. unfold run_tests, mbind, M_bind.
  rewrite print_header_run.
  rewrite (for_each_total _ _ _ run_test_returns).
  replace (exec (print_header "Starting Spotify API Test Suite") (s, p))
    with (s, after p (header_lines "Starting Spotify API Test Suite") [])
    by (unfold exec; by rewrite print_header_run).
  apply returns_unit, print_summary_returns.
Qed.

Lemma run_test_header name (t : Method pyval) h st :
  (forall st', printed header_of (exec t st') = printed header_of st' ++ [h]) ->
  printed header_of (exec (run_test (name, t)) st) = printed header_of st ++ [h].
Proof.
  intros Ht. unfold exec at 1. rewrite run_test_run.
  specialize (Ht st). unfold exec in Ht.
  destruct (t st) as [[v|e] [s p]]; cbn [snd] in *; [done|].
  rewrite <- Ht. unfold exec, print_error. rewrite print_run.
  unfold printed, after; cbn. by rewrite omap_app, app_nil_r.
Qed.

(** C1. [run_all_tests] runs the six checks once each, in the declared
    order, whatever any of them returned or raised, and prints the summary
    afterwards.  For every list of tests, also of tests that raise, the runner
    returns normally in the state reached by running each test in turn and
    then [print_summary]; a test that raises is caught, and costs one error
    line; the six tests are the declared ones; and the headers on standard
    output show each of them started exactly once, in order, with the summary
    last. *)
Theorem run_all_tests_runs_every_check (W : World) :
  (forall ts st,
     run_tests ts st =
     (Ret tt,
      exec print_summary
        (fold_left (fun s t => exec (run_test t) s) ts
           (exec (print_header "Starting Spotify API Test Suite") st))))
  /\ (forall name (t : Method pyval) st,
        run_test (name, t) st =
        match t st with
        | (Ret _, st') => (Ret tt, st')
        | (Raise e, st') =>
            (Ret tt,
             exec (print_error [Lit "Test "; Lit name; Lit " crashed: "; Exc e]) st')
        end)
  /\ (forall st,
        run_all_tests W st =
        (Ret tt,
         exec print_summary
           (exec (run_test ("test_audio_features", test_audio_features W))
           (exec (run_test ("test_search_functionality", test_search_functionality W))
           (exec (run_test ("test_playlist_access", test_playlist_access W))
           (exec (run_test ("test_api_connection", test_api_connection W))
           (exec (run_test ("test_authentication", test_authentication W))
           (exec (run_test ("test_environment_variables", test_environment_variables W))
           (exec (print_header "Starting Spotify API Test Suite") st)))))))))
  /\ (forall st,
        printed header_of (exec (run_all_tests W) st) =
        printed header_of st ++
        ["Starting Spotify API Test Suite"; "Testing Environment Variables";
         "Testing Authentication"; "Testing API Connection";
         "Testing Playlist Access"; "Testing Search Functionality";
         "Testing Audio Features"; "Test Summary"]).
Proof.
  split; [apply run_tests_run|].
  split; [apply run_test_run|].
  split; intros st; unfold run_all_tests.
  - by rewrite run_tests_run.
  - unfold exec at 1. rewrite run_tests_run. cbn [snd tests fold_left].
    rewrite print_summary_header.
    rewrite (run_test_header _ _ _ _ (test_audio_features_header W)).
    rewrite (run_test_header _ _ _ _ (test_search_functionality_header W)).
    rewrite (run_test_header _ _ _ _ (test_playlist_access_header W)).
    rewrite (run_test_header _ _ _ _ (test_api_connection_header W)).
    rewrite (run_test_header _ _ _ _ (test_authentication_header W)).
    rewrite (run_test_header _ _ _ _ (test_environment_variables_header W)).
    rewrite header_printed. by rewrite <- !app_assoc.
Qed.

(** ** The result mapping *)

Lemma dict_set_keys k b d : In k d.*1 -> (dict_set k b d).*1 = d.*1.
Proof.
  induction d as [|[k' b'] d IH]; cbn; [done|].
  intros [->|Hin]; [by rewrite String.eqb_refl|].
  destruct (String.eqb k k'); cbn; [done|]. by rewrite IH.
Qed.

Lemma lookup_dict_set k' k b d :
  lookup_result k' (dict_set k b d)
  = if String.eqb k' k then Some b else lookup_result k' d.
Proof.
  induction d as [|[k0 b0] d IH]; cbn; [done|].
  destruct (String.eqb k k0) eqn:E; cbn.
  - apply String.eqb_eq in E as <-. by destruct (String.eqb k' k).
  - rewrite IH. destruct (String.eqb k' k0) eqn:E'; [|done].
    apply String.eqb_eq in E' as ->. by rewrite String.eqb_sym, E.
Qed.

Lemma sum_values_cons k b d :
  sum_values ((k, b) :: d) = ((if b then 1 else 0) + sum_values d)%nat.
Proof.
  unfold sum_values. rewrite filter_cons. cbn.
  destruct b; by case_decide.
Qed.

Lemma sum_values_dict_set k d : (sum_values d <= sum_values (dict_set k true d))%nat.
Proof.
  induction d as [|[k' b'] d IH]; cbn [dict_set].
  - rewrite sum_values_cons. cbn. lia.
  - destruct (String.eqb k k'); rewrite !sum_values_cons; destruct b'; lia.
Qed.

Lemma sum_values_check_names d :
  d.*1 = check_names -> sum_values d = count_true check_names d.
Proof.
  intros Hkeys.
  do 5 (destruct d as [|[? ?] d]; [discriminate Hkeys|]).
  destruct d; [|discriminate Hkeys].
  cbn in Hkeys. injection Hkeys as -> -> -> -> ->.
  repeat match goal with b : bool |- _ => destruct b end; reflexivity.
Qed.

Lemma sets_only_facts own (st st' : state) :
  In own check_names ->
  (results st.1).*1 = check_names ->
  sets_only own st st' ->
  (results st'.1).*1 = check_names
  /\ (forall k, lookup_result k (results st.1) = Some true ->
                lookup_result k (results st'.1) = Some true)
  /\ (sum_values (results st.1) <= sum_values (results st'.1))%nat.
Proof.
  intros Hown Hkeys [->| ->]; [done|].
  split; [|split].
  - rewrite dict_set_keys; [done|]. by rewrite Hkeys.
  - intros k Hk. rewrite lookup_dict_set. by destruct (String.eqb k own).
  - apply sum_values_dict_set.
Qed.

Section Results.
Variable W : World.

Lemma test_environment_variables_results :
  respects (sets_only "environment") (test_environment_variables W).
Proof. respects_all. Qed.

Lemma test_authentication_results :
  respects (sets_only "authentication") (test_authentication W).
Proof. respects_all. Qed.

Lemma test_api_connection_results :
  respects (sets_only "api_connection") (test_api_connection W).
Proof. respects_all. Qed.

Lemma test_playlist_access_results :
  respects (sets_only "playlist_access") (test_playlist_access W).
Proof. respects_all. Qed.

Lemma test_search_functionality_results :
  respects (sets_only "search_functionality") (test_search_functionality W).
Proof. respects_all. Qed.

Lemma test_audio_features_results : respects same_results (test_audio_features W).
Proof. respects_all. Qed.

Lemma print_summary_results : respects same_results print_summary.
Proof. respects_all. Qed.
End Results.

Lemma run_test_respects (R : relation state) `{!PreOrder R} name (t : Method pyval) :
  respects R t ->
  (forall e, respects R (print_error [Lit "Test "; Lit name; Lit " crashed: "; Exc e])) ->
  respects R (run_test (name, t)).
Proof.
  intros Ht Hh. unfold run_test; cbn [fst snd].
  apply respects_try; [apply _| |exact Hh].
  apply respects_bind; [apply _|exact Ht|intros ?; by apply respects_ret].
Qed.

Lemma run_test_same_results name (t : Method pyval) :
  respects same_results t -> respects same_results (run_test (name, t)).
Proof. intros Ht. apply run_test_respects; [apply _|exact Ht|intros e; respects_all]. Qed.

Lemma run_test_sets_only own name (t : Method pyval) :
  respects (sets_only own) t -> respects (sets_only own) (run_test (name, t)).
Proof. intros Ht. apply run_test_respects; [apply _|exact Ht|intros e; respects_all]. Qed.

Lemma run_test_keys own name (t : Method pyval) (st : state) :
  In own check_names ->
  respects (sets_only own) t ->
  (results st.1).*1 = check_names ->
  (results (exec (run_test (name, t)) st).1).*1 = check_names.
Proof.
  intros Hown Ht Hkeys.
  by apply (sets_only_facts own st _ Hown Hkeys), run_test_sets_only.
Qed.

(** ** The summary line *)

Lemma exec_bind_returns {S A B} (m : M S A) (f : A -> M S B) a st :
  (m st).1 = Ret a -> exec (m ≫= f) st = exec (f a) (exec m st).
Proof.
  intros Hm. rewrite exec_bind. unfold exec.
  destruct (m st) as [r st']; cbn in *. by subst r.
Qed.

Lemma print_summary_overall (st : state) :
  printed overall_of (exec print_summary st)
  = printed overall_of st ++
    [(PInt (Z.of_nat (sum_values (results st.1))),
      PInt (Z.of_nat (length (results st.1))))].
Proof.
  destruct st as [s p]. unfold print_summary.
  rewrite after_header. unfold exec at 2. rewrite print_header_run.
  rewrite (exec_bind_returns _ _ (results s)) by done.
  unfold exec at 2, get_results; cbn [snd].
  rewrite (exec_bind_returns _ _ tt)
    by (by rewrite (for_each_total _ _ _ print_row_returns)).
  assert (forall l : list (string * bool), respects (silent overall_of) (for_each l print_row))
    as Hrows by (intros l; respects_all).
  assert (forall st : state, same_results st (exec (for_each (results s) print_row) st))
    as Hsame by (intros st; revert st; change (respects same_results (for_each (results s) print_row)); respects_all).
  specialize (Hrows (results s) (s, after p (header_lines "Test Summary") [])).
  specialize (Hsame (s, after p (header_lines "Test Summary") [])).
  destruct (exec (for_each (results s) print_row) _) as [s' p'] eqn:E.
  rewrite (exec_bind_returns _ _ tt) by (by rewrite print_run).
  unfold exec at 2. rewrite print_run. cbn [snd].
  assert (respects (silent overall_of)
            (print_verdict (Nat.eqb (sum_values (results s)) (length (results s)))))
    as Htail by respects_all.
  rewrite (Htail _).
  unfold silent, printed, after in *; cbn in *.
  rewrite omap_app, Hrows, omap_app. cbn. by rewrite app_nil_r.
Qed.

Section Run.
Variable W : World.

Lemma tests_keep_keys :
  Forall (fun t => forall st : state,
            (results st.1).*1 = check_names ->
            (results (exec (run_test t) st).1).*1 = check_names)
         (tests W).
Proof.
  unfold tests. repeat apply Forall_cons_2; [..|apply Forall_nil_2]; intros st Hkeys.
  - apply run_test_keys with (own := "environment");
      [cbn; tauto|apply test_environment_variables_results|done].
  - apply run_test_keys with (own := "authentication");
      [cbn; tauto|apply test_authentication_results|done].
  - apply run_test_keys with (own := "api_connection");
      [cbn; tauto|apply test_api_connection_results|done].
  - apply run_test_keys with (own := "playlist_access");
      [cbn; tauto|apply test_playlist_access_results|done].
  - apply run_test_keys with (own := "search_functionality");
      [cbn; tauto|apply test_search_functionality_results|done].
  - by rewrite (run_test_same_results _ _ (test_audio_features_results W)).
Qed.

Lemma fold_keep_keys (ts : list (string * Method pyval)) (st : state) :
  Forall (fun t => forall st : state,
            (results st.1).*1 = check_names ->
            (results (exec (run_test t) st).1).*1 = check_names) ts ->
  (results st.1).*1 = check_names ->
  (results (fold_left (fun s t => exec (run_test t) s) ts st).1).*1 = check_names.
Proof.
  intros Hts. revert st. induction Hts as [|t ts Ht _ IH]; intros st Hkeys; cbn; [done|].
  apply IH, Ht, Hkeys.
Qed.

Lemma after_tests_keys n p : (results (after_tests W n (init, p)).1).*1 = check_names.
Proof.
  unfold after_tests. apply fold_keep_keys.
  - apply Forall_take, tests_keep_keys.
  - unfold exec. by rewrite print_header_run.
Qed.

Lemma after_tests_all st :
  run_all_tests W st = (Ret tt, exec print_summary (after_tests W 6 st)).
Proof. unfold run_all_tests. by rewrite run_tests_run. Qed.

Lemma test_audio_features_overall :
  respects (silent overall_of) (test_audio_features W).
Proof. respects_all. Qed.

(** The run from a fresh object: the mapping still has its five keys at the
    end, it is what the first five tests left, and the one "Overall Result"
    line printed counts the true entries among the five, out of 5. *)
Lemma run_all_tests_overall p :
  let st5 := after_tests W 5 (init, p) in
  let st' := exec (run_all_tests W) (init, p) in
  (results st'.1).*1 = check_names
  /\ results st'.1 = results st5.1
  /\ printed overall_of st' =
     printed overall_of st5 ++
     [(PInt (Z.of_nat (count_true check_names (results st5.1))), PInt 5)].
Proof.
  intros st5 st'.
  assert (st' = exec print_summary (after_tests W 6 (init, p))) as ->
    by (subst st'; unfold exec at 1; by rewrite after_tests_all).
  assert (after_tests W 6 (init, p)
          = exec (run_test ("test_audio_features", test_audio_features W)) st5) as ->.
  { subst st5. unfold after_tests. cbn [firstn tests fold_left]. done. }
  pose proof (after_tests_keys 5 p) as Hkeys. fold st5 in Hkeys.
  pose proof (run_test_same_results "test_audio_features" _
                (test_audio_features_results W) st5) as Hsame.
  pose proof (run_test_respects (silent overall_of) "test_audio_features" _
                test_audio_features_overall) as Hquiet.
  specialize (Hquiet ltac:(intros e; respects_all) st5).
  pose proof (print_summary_results
    (exec (run_test ("test_audio_features", test_audio_features W)) st5)) as Hsum.
  unfold same_results, silent in *.
  rewrite Hsum, print_summary_overall, Hquiet, !Hsame.
  split; [done|]. split; [done|].
  rewrite (sum_values_check_names _ Hkeys).
  replace (length (results st5.1)) with 5%nat; [done|].
  by rewrite <- (length_fmap fst), Hkeys.
Qed.

Lemma tests_silent_overall :
  Forall (fun t => respects (silent overall_of) (run_test t)) (tests W).
Proof.
  unfold tests. repeat apply Forall_cons_2; [..|apply Forall_nil_2];
    (apply run_test_respects; [apply _| |intros e]); respects_all.
Qed.

Lemma fold_respects (R : relation state) `{!PreOrder R}
    (ts : list (string * Method pyval)) (st : state) :
  Forall (fun t => respects R (run_test t)) ts ->
  R st (fold_left (fun s t => exec (run_test t) s) ts st).
Proof.
  intros Hts. revert st. induction Hts as [|t ts Ht _ IH]; intros st; cbn; [done|].
  etransitivity; [apply Ht|apply IH].
Qed.

Lemma after_tests_silent_overall n st :
  printed overall_of (after_tests W n st) = printed overall_of st.
Proof.
  unfold after_tests.
  pose proof (fold_respects (silent overall_of) (take n (tests W))
                (exec (print_header "Starting Spotify API Test Suite") st)) as Hfold.
  unfold silent in Hfold. rewrite Hfold by apply Forall_take, tests_silent_overall.
  assert (respects (silent overall_of) (print_header "Starting Spotify API Test Suite"))
    as H by respects_all.
  apply H.
Qed.

(** C2. [print_summary] prints one "Overall Result" line whose passed-count
    is the number of true values of the result mapping and whose total is
    its length; [test_audio_features] never touches the mapping; and in a run
    of [run_all_tests] on a fresh object the line reads <passed>/5 where
    <passed> counts the true entries among the five recorded names as the
    first five tests left them, before [test_audio_features] even starts. *)
Theorem summary_counts_the_five_recorded_checks :
  (forall st : state,
     printed overall_of (exec print_summary st)
     = printed overall_of st ++
       [(PInt (Z.of_nat (sum_values (results st.1))),
         PInt (Z.of_nat (length (results st.1))))])
  /\ (forall st : state, results (exec (test_audio_features W) st).1 = results st.1)
  /\ (forall p,
        (results (after_tests W 5 (init, p)).1).*1 = check_names
        /\ printed overall_of (exec (run_all_tests W) (init, p))
           = printed overall_of (init, p) ++
             [(PInt (Z.of_nat (count_true check_names
                                 (results (after_tests W 5 (init, p)).1))),
               PInt 5)]).
Proof.
  split; [apply print_summary_overall|].
  split; [apply test_audio_features_results|].
  intros p. split; [apply after_tests_keys|].
  destruct (run_all_tests_overall p) as (_ & _ & ->).
  by rewrite after_tests_silent_overall.
Qed.

(** C9. The result mapping is built with exactly the five check names.  On a
    mapping with those keys, every test of the list leaves the mapping as it
    was or sets its own entry to true ([test_audio_features] leaves it as it
    was): the keys stay the five names in the same order, an entry that was
    true stays true, and the number of true entries does not decrease.
    [print_summary] does not change the mapping, and after a whole run from a
    fresh object the keys are still the five names and the printed total
    is 5. *)
Theorem result_mapping_invariant :
  (results init).*1 = check_names
  /\ (forall name (t : Method pyval) (st : state),
        In (name, t) (tests W) ->
        (results st.1).*1 = check_names ->
        match own_entry name with
        | Some own => In own check_names /\ sets_only own st (exec t st)
        | None => same_results st (exec t st)
        end
        /\ (results (exec t st).1).*1 = check_names
        /\ (forall k, lookup_result k (results st.1) = Some true ->
                      lookup_result k (results (exec t st).1) = Some true)
        /\ (sum_values (results st.1) <= sum_values (results (exec t st).1))%nat)
  /\ (forall st : state, results (exec print_summary st).1 = results st.1)
  /\ (forall p,
        (results (exec (run_all_tests W) (init, p)).1).*1 = check_names
        /\ exists passed,
             printed overall_of (exec (run_all_tests W) (init, p))
             = printed overall_of (init, p) ++ [(PInt passed, PInt 5)]).
Proof.
  split; [done|]. split; [|split; [apply print_summary_results|]].
  - intros name t st Hin Hkeys. unfold tests in Hin. cbn [In] in Hin.
    assert (forall own, In own check_names -> sets_only own st (exec t st) ->
              (In own check_names /\ sets_only own st (exec t st))
              /\ (results (exec t st).1).*1 = check_names
              /\ (forall k, lookup_result k (results st.1) = Some true ->
                            lookup_result k (results (exec t st).1) = Some true)
              /\ (sum_values (results st.1) <= sum_values (results (exec t st).1))%nat)
      as Hown.
    { intros own Hown Hstep. split; [done|]. by apply (sets_only_facts own). }
    destruct Hin as [[= <- <-]|[[= <- <-]|[[= <- <-]|[[= <- <-]|[[= <- <-]|[[= <- <-]|[]]]]]]];
      cbn [own_entry String.eqb Ascii.eqb Bool.eqb].
    + apply Hown; [cbn; tauto|apply test_environment_variables_results].
    + apply Hown; [cbn; tauto|apply test_authentication_results].
    + apply Hown; [cbn; tauto|apply test_api_connection_results].
    + apply Hown; [cbn; tauto|apply test_playlist_access_results].
    + apply Hown; [cbn; tauto|apply test_search_functionality_results].
    + pose proof (test_audio_features_results W st) as Hsame.
      unfold same_results in *. rewrite Hsame. by repeat split.
  - intros p. destruct (run_all_tests_overall p) as (Hkeys & _ & Hline).
    split; [done|]. eexists. by rewrite Hline, after_tests_silent_overall.
Qed.
End Run.

Lemma result_mapping_invariant_witness :
  In ("test_authentication", test_authentication working_world) (tests working_world)
  /\ (results init).*1 = check_names
  /\ (results (exec (test_authentication working_world) (init, empty_process)).1).*1
     = check_names
  /\ (sum_values (results init)
      <= sum_values (results (exec (test_authentication working_world)
                                (init, empty_process)).1))%nat.
Proof.
  assert (In ("test_authentication", test_authentication working_world)
            (tests working_world)) as Hin
    by (simpl; tauto).
  assert ((results init).*1 = check_names) as Hkeys by reflexivity.
  split; [exact Hin|]. split; [exact Hkeys|].
  destruct (result_mapping_invariant working_world) as (_ & Hstep & _).
  destruct (Hstep _ _ (init, empty_process) Hin Hkeys) as (_ & Hkeys' & _ & Hsum).
  split; [exact Hkeys'|exact Hsum].
Defined.


(** ** C8 and C10: the credentials *)

Lemma getenv_or_run {S} k1 k2 (s : S) p :
  getenv_or k1 k2 (s, p) = (Ret (credential (environ p) k1 k2), (s, p)).
Proof.
  unfold getenv_or, credential, py_or, mbind, M_bind, getenv, mret, M_ret.
  by destruct (truthy _).
Qed.

Lemma truthy_credential env k1 k2 :
  truthy (credential env k1 k2) = credential_present env k1 k2.
Proof.
  unfold credential, credential_present, py_or, nonempty.
  destruct (env !! k1) as [v1|], (env !! k2) as [v2|]; cbn; unfold truthy;
    try (destruct (String.eqb v1 "") eqn:E1; cbn; rewrite ?E1);
    try (destruct (String.eqb v2 "") eqn:E2; cbn; rewrite ?E2); done.
Qed.

Ltac munfold :=
  unfold print_header, print_success, print_error, print_info, found_or_missing,
    SpotifyClientCredentials, Spotify, invoke, request, record, load_dotenv, print,
    get_sp, set_sp, get_results, set_result, eval, raise, try_except,
    mbind, M_bind, mret, M_ret.

Ltac mrun := repeat (progress (munfold; cbn; rewrite ?getenv_or_run)).

Lemma test_environment_variables_run (W : World) s p :
  let env := environ p ∪ dotenv_file W in
  let ok := credentials_present env in
  exists out,
    test_environment_variables W (s, p)
    = match dotenv W with
      | Ret _ =>
          (Ret (PBool ok),
           ({| results := if ok then dict_set "environment" true (results s)
                          else results s;
               sp := sp s |},
            {| environ := env; stdout := out; trace := trace p |}))
      | Raise e =>
          (Raise e, (s, {| environ := env; stdout := out; trace := trace p |}))
      end.
Proof.
  intros env ok. subst ok env.
  unfold test_environment_variables, load_dotenv, dotenv_file.
  destruct (dotenv W) as [file|e]; mrun.
  - rewrite !truthy_credential.
    fold (credentials_present (environ p ∪ file)).
    destruct (credentials_present (environ p ∪ file)); mrun; [by eexists|].
    destruct s. by eexists.
  - rewrite (right_id_L ∅ (∪)). by eexists.
Qed.




(** C10. When a credential is absent or empty under both of its names,
    [quick_test] returns [False] and no library call is on the trace: neither
    constructor ran and no request was sent. *)
Theorem quick_test_without_credentials (W : World) (p : process) :
  let env := environ p ∪ dotenv_file W in
  credential_present env "CLIENT_ID" "SPOTIFY_CLIENT_ID" = false
  \/ credential_present env "CLIENT_SECRET" "SPOTIFY_CLIENT_SECRET" = false ->
  (quick_test W (tt, p)).1 = Ret (PBool false)
  /\ trace (exec (quick_test W) (tt, p)).2 = trace p.
Proof.
  intros env Hmissing. subst env. revert Hmissing.
  unfold exec, quick_test, load_dotenv, dotenv_file.
  destruct (dotenv W) as [file|e]; intros Hmissing; mrun; [|done].
  rewrite !truthy_credential.
  destruct Hmissing as [-> | ->]; cbn; rewrite ?orb_true_r; mrun; done.
Qed.

Lemma quick_test_without_credentials_witness :
  credential_present (environ empty_process ∪ dotenv_file no_credentials_world)
    "CLIENT_ID" "SPOTIFY_CLIENT_ID" = false
  /\ (quick_test no_credentials_world (tt, empty_process)).1 = Ret (PBool false)
  /\ trace (exec (quick_test no_credentials_world) (tt, empty_process)).2 = [].
Proof.
  assert (credential_present (environ empty_process ∪ dotenv_file no_credentials_world)
            "CLIENT_ID" "SPOTIFY_CLIENT_ID" = false) as Hmissing
    by (vm_compute; reflexivity).
  split; [exact Hmissing|].
  apply (quick_test_without_credentials no_credentials_world empty_process).
  left. exact Hmissing.
Defined.

(** ** C7: authentication *)

Lemma test_authentication_run (W : World) s p :
  exists out calls,
    test_authentication W (s, p)
    = match construction_error W (environ p) with
      | None =>
          (Ret (PBool true),
           ({| results := dict_set "authentication" true (results s);
               sp := Some (env_client (environ p)) |},
            {| environ := environ p; stdout := out; trace := trace p ++ calls |}))
      | Some e =>
          (Ret (PBool false),
           (s, {| environ := environ p;
                  stdout := out ++ [[Lit "❌ "; Lit "Authentication failed: "; Exc e]];
                  trace := trace p ++ calls |}))
      end.
Proof.
  unfold test_authentication, construction_error, env_client, env_auth_manager. mrun.
  destruct (credentials_error W _ _) as [e|]; mrun.
  - eexists _, [_]. reflexivity.
  - destruct (spotify_error W _ _ _) as [e|]; mrun.
    + eexists _, [_; _]. rewrite <- (app_assoc (trace p)). reflexivity.
    + eexists _, [_; _]. rewrite <- (app_assoc (trace p)). reflexivity.
Qed.

(** C7. If building the authenticator or the client raises, the check
    returns [False] and the object is exactly as before the call: the
    "authentication" entry keeps its value and the client handle keeps its
    value, [None] if it was [None]; the exception is reported on the last
    printed line.  In every run the check either returns [True] or leaves
    the object as it was, so the handle is assigned on the success path
    only. *)
Theorem test_authentication_failure_keeps_handle (W : World) s p e :
  construction_error W (environ p) = Some e ->
  let st' := exec (test_authentication W) (s, p) in
  (test_authentication W (s, p)).1 = Ret (PBool false)
  /\ st'.1 = s
  /\ lookup_result "authentication" (results st'.1)
     = lookup_result "authentication" (results s)
  /\ sp st'.1 = sp s
  /\ last (stdout st'.2) = Some [Lit "❌ "; Lit "Authentication failed: "; Exc e]
  /\ (forall s0 p0,
        (test_authentication W (s0, p0)).1 = Ret (PBool true)
        \/ (exec (test_authentication W) (s0, p0)).1 = s0).
Proof.
  intros He st'. subst st'. unfold exec.
  destruct (test_authentication_run W s p) as (out & calls & ->). rewrite He. cbn.
  repeat split; try done.
  - by rewrite last_snoc.
  - intros s0 p0. destruct (test_authentication_run W s0 p0) as (out0 & calls0 & ->).
    destruct (construction_error W (environ p0)); cbn; auto.
Qed.

Lemma test_authentication_failure_keeps_handle_witness :
  construction_error no_credentials_world (environ empty_process)
  = Some (LibraryError "No client_id")
  /\ (test_authentication no_credentials_world (init, empty_process)).1 = Ret (PBool false)
  /\ sp (exec (test_authentication no_credentials_world) (init, empty_process)).1 = None.
Proof.
  assert (construction_error no_credentials_world (environ empty_process)
          = Some (LibraryError "No client_id")) as Herror
    by (vm_compute; reflexivity).
  split; [exact Herror|].
  destruct (test_authentication_failure_keeps_handle no_credentials_world init
              empty_process (LibraryError "No client_id") Herror)
    as (Hret & _ & _ & Hsp & _).
  split; [exact Hret|exact Hsp].
Defined.

(** ** C5: the connection check *)

Ltac mcase_step :=
  match goal with
  | |- context [remote ?W ?t ?c ?r] => destruct (remote W t c r) eqn:?
  | |- context [truthy ?v] => destruct (truthy v) eqn:?
  | |- context [contains ?k ?v] => destruct (contains k v) as [[|]|] eqn:?
  | |- context [getitem ?v ?k] => destruct (getitem v k) eqn:?
  | |- context [getindex ?v ?i] => destruct (getindex v i) eqn:?
  | |- context [dict_get ?v ?k ?d] => destruct (dict_get v k d) eqn:?
  | |- context [numeric_format ?v ?f] => destruct (numeric_format v f) eqn:?
  | |- context [slice_to ?v ?n] => destruct (slice_to v n) eqn:?
  end; simplify_eq; cbn.

Ltac mcase := munfold; cbn; repeat mcase_step.

Lemma test_api_connection_run (W : World) s p :
  let search := Search "artist:Ed Sheeran" "track" 1 in
  let ok := api_connection_ok (answer W (sp s) (trace p) "search" search) in
  exists out,
    test_api_connection W (s, p)
    = (Ret (PBool ok),
       ({| results := if ok then dict_set "api_connection" true (results s)
                      else results s;
           sp := sp s |},
        {| environ := environ p; stdout := out;
           trace := trace p ++ sent (sp s) search |})).
Proof.
  intros search ok. subst ok search.
  unfold test_api_connection, api_connection_ok, answer, sent, readable, holds.
  destruct s as [res [c|]]; mcase; rewrite ?app_nil_r; by eexists.
Qed.

(** C5, as the code has it.  [test_api_connection] sends its one search
    (query "artist:Ed Sheeran", type "track", limit 1) when a client was
    built, and none otherwise.  It returns [True] and sets "api_connection"
    exactly when the answer came back non-empty, has a "tracks" key, and the
    first item of its track list carries the three fields the check prints:
    a name, a first artist with a name, and a duration.  In every other case
    it returns [False] and the mapping is as it was. *)
Theorem test_api_connection_iff_first_track_readable (W : World) s p :
  let search := Search "artist:Ed Sheeran" "track" 1 in
  let ok := api_connection_ok (answer W (sp s) (trace p) "search" search) in
  let st' := exec (test_api_connection W) (s, p) in
  (test_api_connection W (s, p)).1 = Ret (PBool ok)
  /\ results st'.1 = (if ok then dict_set "api_connection" true (results s)
                      else results s)
  /\ lookup_result "api_connection" (results st'.1)
     = (if ok then Some true else lookup_result "api_connection" (results s))
  /\ sp st'.1 = sp s
  /\ trace st'.2 = trace p ++ sent (sp s) search.
Proof.
  intros search ok st'. subst st'. unfold exec.
  destruct (test_api_connection_run W s p) as [out ->]. fold search ok. cbn.
  repeat split; try done.
  destruct ok; [|done]. rewrite lookup_dict_set. by rewrite String.eqb_refl.
Qed.

(** C5 as stated fails: the answer holds a track list with one item, but the
    item lists no artist, so printing the artist raises and the check
    reports failure. *)
Lemma test_api_connection_first_track_not_enough :
  let search := Search "artist:Ed Sheeran" "track" 1 in
  let st := (authenticated, empty_process) in
  remote no_artist_world [] sample_client search
  = Ret (one_hit "track" track_without_artists)
  /\ has_first_track (one_hit "track" track_without_artists) = true
  /\ (test_api_connection no_artist_world st).1 = Ret (PBool false)
  /\ lookup_result "api_connection" (results (exec (test_api_connection no_artist_world) st).1)
     = Some false
  /\ last (stdout (exec (test_api_connection no_artist_world) st).2)
     = Some [Lit "❌ "; Lit "API connection test failed: "; Exc IndexError].
Proof. vm_compute. repeat split. Qed.

(** ** C4: the playlist check *)

Lemma print_sample_run i item s p :
  exists out r,
    print_sample (i, item) (s, p)
    = (r, (s, {| environ := environ p; stdout := stdout p ++ out; trace := trace p |}))
    /\ is_ret r = sample_ok item.
Proof.
  unfold print_sample, sample_ok, readable.
  mcase; try (eexists [], (Raise _); rewrite app_nil_r; by destruct p).
  by eexists [_], (Ret tt).
Qed.

Lemma print_samples_run (l : list pyval) (g : nat -> nat) s p :
  exists out r,
    for_each (imap (fun i x => (g i, x)) l) print_sample (s, p)
    = (r, (s, {| environ := environ p; stdout := stdout p ++ out; trace := trace p |}))
    /\ is_ret r = forallb sample_ok l.
Proof.
  revert g p. induction l as [|item l IH]; intros g p.
  - exists [], (Ret tt). cbn. rewrite app_nil_r. by destruct p.
  - rewrite imap_cons. cbn [for_each forallb]. unfold mbind, M_bind.
    destruct (print_sample_run (g 0%nat) item s p) as (out1 & r1 & -> & <-).
    destruct r1 as [[]|e]; cbn [is_ret andb].
    + destruct (IH (g ∘ S) {| environ := environ p; stdout := stdout p ++ out1;
                              trace := trace p |}) as (out & r & Hrun & <-).
      exists (out1 ++ out), r. split; [|done].
      rewrite app_assoc. exact Hrun.
    + by exists out1, (Raise e).
Qed.

Lemma print_enumerated_samples_run (l : list pyval) s p :
  exists out r,
    for_each (enumerate l) print_sample (s, p)
    = (r, (s, {| environ := environ p; stdout := stdout p ++ out; trace := trace p |}))
    /\ is_ret r = forallb sample_ok l.
Proof. apply (print_samples_run l id). Qed.

Lemma test_playlist_access_run (W : World) s p :
  let ok := playlist_access_ok W (sp s) (trace p) in
  let first := answer W (sp s) (trace p) "playlist" (Playlist playlist_id) in
  exists out calls,
    test_playlist_access W (s, p)
    = (Ret (if ok then PBool true else if empty_answer first then PNone else PBool false),
       ({| results := if ok then dict_set "playlist_access" true (results s)
                      else results s;
           sp := sp s |},
        {| environ := environ p; stdout := out; trace := trace p ++ calls |})).
Proof.
  intros ok first. subst ok first.
  unfold test_playlist_access, playlist_access_body, playlist_access_ok,
    playlist_metadata_ok, samples_ok, empty_answer, answer, sent, readable.
  destruct s as [res [c|]]; mcase;
    try match goal with
        | |- context [for_each (enumerate ?l) print_sample (?s, ?p')] =>
            destruct (print_enumerated_samples_run l s p') as (out & r & -> & <-);
            destruct r as [[]|?]; cbn
        end;
    try (eexists _, []; rewrite app_nil_r; reflexivity);
    try (eexists _, [_]; reflexivity);
    try (eexists _, [_; _]; rewrite <- (app_assoc (trace p)); reflexivity).
Qed.

Lemma playlist_access_body_run (W : World) s p :
  exists r s' p',
    playlist_access_body W (s, p) = (r, (s', p'))
    /\ match r with
       | Raise _ => s' = s
       | Ret v =>
           exists playlist,
             answer W (sp s) (trace p) "playlist" (Playlist playlist_id) = Ret playlist
             /\ v = (if truthy playlist then PBool true else PNone)
             /\ s' = {| results := if truthy playlist
                                   then dict_set "playlist_access" true (results s)
                                   else results s;
                        sp := sp s |}
       end.
Proof.
  unfold playlist_access_body, answer.
  destruct s as [res [c|]]; mcase;
    try match goal with
        | |- context [for_each (enumerate ?l) print_sample (?s, ?p')] =>
            destruct (print_enumerated_samples_run l s p') as (out & r & -> & _);
            destruct r as [[]|?]; cbn
        end;
    eexists _, _, _; (split; [reflexivity|]); cbn; try reflexivity;
    eexists; (split; [reflexivity|]);
    repeat match goal with
           | H : truthy _ = _ |- _ => try rewrite H; clear H
           end;
    split; reflexivity.
Qed.

(** C4.  [test_playlist_access] never raises.  When an exception is raised
    inside its [try] block, by the playlist fetch, by a print of the metadata
    or by the nested fetch of tracks and its prints, the handler reports it:
    the check returns [False], prints the error, and the object, the
    "playlist_access" entry included, is as it was.  When no exception is
    raised, the playlist fetch returned an object and the check returns [True]
    exactly when that object is non-empty, and then "playlist_access" reads
    true; for an empty object the entry keeps its value.  In all, the check
    returns [True] exactly when the playlist is non-empty and everything the
    block reads of the two answers can be read. *)
Theorem test_playlist_access_succeeds_iff_playlist_nonempty (W : World) s p :
  let body := playlist_access_body W
                (exec (print_header "Testing Playlist Access") (s, p)) in
  let first := answer W (sp s) (trace p) "playlist" (Playlist playlist_id) in
  let st' := exec (test_playlist_access W) (s, p) in
  is_ret (test_playlist_access W (s, p)).1 = true
  /\ (forall e,
        body.1 = Raise e ->
        (test_playlist_access W (s, p)).1 = Ret (PBool false)
        /\ st'.1 = s
        /\ lookup_result "playlist_access" (results st'.1)
           = lookup_result "playlist_access" (results s)
        /\ last (stdout st'.2)
           = Some [Lit "❌ "; Lit "Playlist access test failed: "; Exc e])
  /\ (forall v,
        body.1 = Ret v ->
        exists playlist,
          first = Ret playlist
          /\ succeeded (test_playlist_access W (s, p)).1 = truthy playlist
          /\ lookup_result "playlist_access" (results st'.1)
             = (if truthy playlist then Some true
                else lookup_result "playlist_access" (results s))
          /\ sp st'.1 = sp s)
  /\ succeeded (test_playlist_access W (s, p)).1
     = playlist_access_ok W (sp s) (trace p)
  /\ lookup_result "playlist_access" (results st'.1)
     = (if playlist_access_ok W (sp s) (trace p) then Some true
        else lookup_result "playlist_access" (results s)).
Proof.
  intros body first st'.
  assert (succeeded (test_playlist_access W (s, p)).1
          = playlist_access_ok W (sp s) (trace p)
          /\ lookup_result "playlist_access" (results st'.1)
             = (if playlist_access_ok W (sp s) (trace p) then Some true
                else lookup_result "playlist_access" (results s))) as Hexact.
  { subst st'. unfold exec.
    destruct (test_playlist_access_run W s p) as (out & calls & ->). cbn.
    destruct (playlist_access_ok W (sp s) (trace p)).
    - split; [done|]. rewrite lookup_dict_set. by rewrite String.eqb_refl.
    - split; [|done]. by destruct (empty_answer _). }
  assert (exec (print_header "Testing Playlist Access") (s, p)
          = (s, after p (header_lines "Testing Playlist Access") [])) as Hheader
    by (unfold exec; by rewrite print_header_run).
  assert (test_playlist_access W (s, p)
          = match playlist_access_body W
                    (s, after p (header_lines "Testing Playlist Access") []) with
            | (Ret v, st1) => (Ret v, st1)
            | (Raise e, st1) =>
                (Ret (PBool false),
                 exec (print_error [Lit "Playlist access test failed: "; Exc e]) st1)
            end) as Hrun.
  { unfold test_playlist_access, mbind, M_bind, try_except.
    rewrite print_header_run.
    destruct (playlist_access_body W
                (s, after p (header_lines "Testing Playlist Access") []))
      as [[v|e] [s1 p1]]; [done|].
    unfold print_error, exec. by rewrite !print_run. }
  subst body st'. unfold exec in *. rewrite Hheader. rewrite Hrun in *. clear Hrun.
  destruct (playlist_access_body_run W s
              (after p (header_lines "Testing Playlist Access") []))
    as (r & s' & p' & Hb & Hbody).
  rewrite Hb in *.
  cbn [after trace] in Hbody. rewrite app_nil_r in Hbody. cbn [fst snd] in *.
  destruct r as [v|e].
  - destruct Hbody as (playlist & Hfirst & -> & ->).
    cbn [fst snd results sp] in *.
    split; [done|]. split; [done|]. split; [|exact Hexact].
    intros v' _. exists playlist. split; [exact Hfirst|].
    destruct (truthy playlist); cbn; (split; [done|]); (split; [|done]); [|done].
    rewrite lookup_dict_set. by rewrite String.eqb_refl.
  - subst s'. unfold print_error in *. rewrite print_run in *.
    cbn [fst snd after stdout] in *.
    split; [done|]. split; [|split; [done|exact Hexact]].
    intros e' [= <-]. repeat split; try done.
    by rewrite last_snoc.
Qed.

Lemma test_playlist_access_succeeds_iff_playlist_nonempty_witness :
  (playlist_access_body dropped_connection_world
     (exec (print_header "Testing Playlist Access") (authenticated, empty_process))).1
  = Raise (LibraryError "Connection reset by peer")
  /\ (test_playlist_access dropped_connection_world (authenticated, empty_process)).1
     = Ret (PBool false)
  /\ (playlist_access_body working_world
        (exec (print_header "Testing Playlist Access") (authenticated, empty_process))).1
     = Ret (PBool true)
  /\ lookup_result "playlist_access"
       (results (exec (test_playlist_access working_world)
                   (authenticated, empty_process)).1)
     = Some true.
Proof.
  assert ((playlist_access_body dropped_connection_world
             (exec (print_header "Testing Playlist Access")
                (authenticated, empty_process))).1
          = Raise (LibraryError "Connection reset by peer")) as Hraises
    by (vm_compute; reflexivity).
  assert ((playlist_access_body working_world
             (exec (print_header "Testing Playlist Access")
                (authenticated, empty_process))).1
          = Ret (PBool true)) as Hreturns
    by (vm_compute; reflexivity).
  split; [exact Hraises|].
  destruct (test_playlist_access_succeeds_iff_playlist_nonempty dropped_connection_world
              authenticated empty_process) as (_ & Hcaught & _).
  destruct (Hcaught _ Hraises) as (Hfalse & _).
  split; [exact Hfalse|]. split; [exact Hreturns|].
  destruct (test_playlist_access_succeeds_iff_playlist_nonempty working_world
              authenticated empty_process) as (_ & _ & Hdone & _).
  destruct (Hdone _ Hreturns) as (playlist & Hfirst & _ & Hlookup & _).
  rewrite Hlookup.
  assert (playlist = sample_playlist) as ->
    by (vm_compute in Hfirst; by injection Hfirst as <-).
  reflexivity.
Defined.

(** The spec scenario of a connection that drops in the middle of the check:
    the playlist is served with all its metadata, the nested fetch of tracks
    raises, and the check returns [False] with "playlist_access" left false. *)
Example dropped_connection_is_reported_as_failure :
  let st := (authenticated, empty_process) in
  remote dropped_connection_world [] sample_client (Playlist playlist_id)
  = Ret sample_playlist
  /\ truthy sample_playlist = true
  /\ (test_playlist_access dropped_connection_world st).1 = Ret (PBool false)
  /\ lookup_result "playlist_access"
       (results (exec (test_playlist_access dropped_connection_world) st).1)
     = Some false.
Proof. vm_compute. repeat split. Qed.

(** ** C6: the search check *)

Lemma search_one_run (W : World) q type s p :
  In type entity_types ->
  exists out r,
    search_one W (q, type) (s, p)
    = (r, (s, {| environ := environ p; stdout := stdout p ++ out;
                 trace := trace p ++ sent (sp s) (Search q type 1) |}))
    /\ is_ret r = search_one_ok type (answer W (sp s) (trace p) "search" (Search q type 1)).
Proof.
  intros Htype. unfold entity_types in Htype. cbn [In] in Htype.
  unfold search_one, print_item, search_one_ok, item_ok, answer, sent, readable.
  destruct s as [res [c|]];
    destruct Htype as [<-|[<-|[<-|[<-|[]]]]]; mcase;
    try (eexists [], (Raise _); rewrite !app_nil_r; split; [|reflexivity];
         try reflexivity; by destruct p);
    try (eexists [], (Ret tt); rewrite !app_nil_r; split; reflexivity);
    try (eexists [_], (Ret tt); split; reflexivity).
Qed.

Lemma searches_run (W : World) (queries : list (string * string)) s p :
  Forall (fun query => In query.2 entity_types) queries ->
  exists out calls r,
    for_each queries (search_one W) (s, p)
    = (r, (s, {| environ := environ p; stdout := stdout p ++ out;
                 trace := trace p ++ calls |}))
    /\ is_ret r = searches_ok W (sp s) (trace p) queries
    /\ (is_ret r = true -> calls = searches_sent (sp s) queries).
Proof.
  intros Htypes. revert p.
  induction Htypes as [|[q type] queries Htype _ IH]; intros p.
  - exists [], [], (Ret tt). cbn. rewrite !app_nil_r. by destruct p.
  - cbn [for_each searches_ok]. unfold mbind, M_bind.
    destruct (search_one_run W q type s p Htype) as (out1 & r1 & -> & <-).
    destruct r1 as [[]|e]; cbn [is_ret andb].
    + destruct (IH {| environ := environ p; stdout := stdout p ++ out1;
                      trace := trace p ++ sent (sp s) (Search q type 1) |})
        as (out & calls & r & Hrun & Hok & Hcalls).
      exists (out1 ++ out), (sent (sp s) (Search q type 1) ++ calls), r.
      cbn [environ stdout trace] in Hrun, Hok. rewrite !app_assoc.
      split; [exact Hrun|]. split; [by rewrite <- Hok|].
      intros Hr. cbn [searches_sent flat_map]. by rewrite (Hcalls Hr).
    + exists out1, (sent (sp s) (Search q type 1)), (Raise e). by repeat split.
Qed.

Lemma search_queries_types :
  Forall (fun query : string * string => In query.2 entity_types) search_queries.
Proof. unfold search_queries, entity_types. repeat constructor; cbn; tauto. Qed.

Lemma test_search_functionality_run (W : World) s p :
  let ok := searches_ok W (sp s) (trace p) search_queries in
  exists out calls,
    test_search_functionality W (s, p)
    = (Ret (PBool ok),
       ({| results := if ok then dict_set "search_functionality" true (results s)
                      else results s;
           sp := sp s |},
        {| environ := environ p; stdout := out; trace := trace p ++ calls |}))
    /\ (ok = true -> calls = searches_sent (sp s) search_queries).
Proof.
  intros ok. subst ok. unfold test_search_functionality.
  unfold mbind at 1, M_bind at 1. rewrite print_header_run.
  unfold try_except, mbind, M_bind.
  destruct (searches_run W search_queries s
              (after p (header_lines "Testing Search Functionality") [])
              search_queries_types)
    as (out & calls & r & Hrun & Hok & Hcalls).
  cbn [after trace stdout environ] in Hrun, Hok. rewrite app_nil_r in Hrun, Hok.
  rewrite Hrun, <- Hok.
  destruct r as [[]|e]; cbn [is_ret]; mrun.
  - eexists _, calls. split; [reflexivity|]. intros _. by apply Hcalls.
  - eexists _, calls. destruct s. split; [reflexivity|done].
Qed.

Lemma search_one_skips_empty (W : World) q type c s p v items :
  In type entity_types ->
  sp s = Some c ->
  remote W (trace p) c (Search q type 1) = Ret v ->
  truthy v = true ->
  contains (type +:+ "s") v = Ret true ->
  subscript v [K (type +:+ "s"); K "items"] = Ret items ->
  truthy items = false ->
  search_one W (q, type) (s, p)
  = (Ret tt, (s, {| environ := environ p; stdout := stdout p;
                    trace := trace p ++ [Request c (Search q type 1)] |})).
Proof.
  intros _ Hsp Hanswer Hv Hkey Hitems Hempty.
  unfold search_one. destruct s as [res self_sp]. cbn in Hsp. subst self_sp.
  munfold. cbn. rewrite Hanswer, Hv. cbn. rewrite Hkey. cbn.
  cbn in Hitems. rewrite Hitems. cbn. by rewrite Hempty.
Qed.

(** C6. [test_search_functionality] runs the loop over the four fixed
    queries and returns [True], after which "search_functionality" reads true,
    exactly when the loop completes without raising; otherwise it returns
    [False] and the mapping, that entry included, is as it was.  The loop completes exactly when each query, in
    turn, gets an answer the loop body can read, and then the four searches
    (limit 1 each) are the requests sent, in order.  An iteration whose answer
    has an empty item list returns normally and prints nothing. *)
Theorem test_search_functionality_iff_loop_completes (W : World) s p :
  let loop := for_each search_queries (search_one W)
                (exec (print_header "Testing Search Functionality") (s, p)) in
  let ok := is_ret loop.1 in
  let st' := exec (test_search_functionality W) (s, p) in
  search_queries = [("Dua Lipa", "artist"); ("Blinding Lights", "track");
                    ("Today's Top Hits", "playlist"); ("Future Nostalgia", "album")]
  /\ (test_search_functionality W (s, p)).1 = Ret (PBool ok)
  /\ results st'.1 = (if ok then dict_set "search_functionality" true (results s)
                      else results s)
  /\ lookup_result "search_functionality" (results st'.1)
     = (if ok then Some true
        else lookup_result "search_functionality" (results s))
  /\ sp st'.1 = sp s
  /\ ok = searches_ok W (sp s) (trace p) search_queries
  /\ (ok = true -> trace st'.2 = trace p ++ searches_sent (sp s) search_queries)
  /\ (forall q type c s0 p0 v items,
        In type entity_types ->
        sp s0 = Some c ->
        remote W (trace p0) c (Search q type 1) = Ret v ->
        truthy v = true ->
        contains (type +:+ "s") v = Ret true ->
        subscript v [K (type +:+ "s"); K "items"] = Ret items ->
        truthy items = false ->
        search_one W (q, type) (s0, p0)
        = (Ret tt, (s0, {| environ := environ p0; stdout := stdout p0;
                           trace := trace p0 ++ [Request c (Search q type 1)] |}))).
Proof.
  intros loop ok st'. subst st' ok loop.
  assert (exec (print_header "Testing Search Functionality") (s, p)
          = (s, after p (header_lines "Testing Search Functionality") [])) as ->
    by (unfold exec; by rewrite print_header_run).
  unfold exec.
  destruct (test_search_functionality_run W s p) as (out & calls & -> & Hcalls).
  destruct (searches_run W search_queries s
              (after p (header_lines "Testing Search Functionality") [])
              search_queries_types)
    as (out' & calls' & r & -> & Hok & _).
  cbn [after trace stdout environ fst snd] in *.
  rewrite app_nil_r in Hok. rewrite Hok.
  repeat split; try done.
  - cbn [results].
    destruct (searches_ok W (sp s) (trace p) search_queries); [|done].
    rewrite lookup_dict_set. by rewrite String.eqb_refl.
  - intros Hr. by rewrite (Hcalls Hr).
  - apply search_one_skips_empty.
Qed.

Lemma test_search_functionality_iff_loop_completes_witness :
  is_ret (for_each search_queries (search_one no_hits_world)
            (exec (print_header "Testing Search Functionality")
               (authenticated, empty_process))).1 = true
  /\ lookup_result "search_functionality"
       (results (exec (test_search_functionality no_hits_world)
                   (authenticated, empty_process)).1)
     = Some true
  /\ trace (exec (test_search_functionality no_hits_world) (authenticated, empty_process)).2
     = [Request sample_client (Search "Dua Lipa" "artist" 1);
        Request sample_client (Search "Blinding Lights" "track" 1);
        Request sample_client (Search "Today's Top Hits" "playlist" 1);
        Request sample_client (Search "Future Nostalgia" "album" 1)].
Proof.
  assert (is_ret (for_each search_queries (search_one no_hits_world)
                    (exec (print_header "Testing Search Functionality")
                       (authenticated, empty_process))).1 = true) as Hloop
    by (vm_compute; reflexivity).
  split; [exact Hloop|].
  destruct (test_search_functionality_iff_loop_completes no_hits_world
              authenticated empty_process)
    as (_ & _ & _ & Hlookup & _ & _ & Htrace & _).
  split; [rewrite Hlookup, Hloop; reflexivity|exact (Htrace Hloop)].
Defined.

(** ** C3: what the checks return *)

Lemma four_checks_return_bool (W : World) (st : state) :
  (is_ret (dotenv W) = true ->
   returned_bool (test_environment_variables W st).1 = true)
  /\ returned_bool (test_authentication W st).1 = true
  /\ returned_bool (test_api_connection W st).1 = true
  /\ returned_bool (test_search_functionality W st).1 = true.
Proof.
  destruct st as [s p]. repeat split.
  - destruct (test_environment_variables_run W s p) as (out & ->).
    by destruct (dotenv W).
  - destruct (test_authentication_run W s p) as (out & calls & ->).
    by destruct (construction_error W (environ p)).
  - by destruct (test_api_connection_run W s p) as (out & ->).
  - by destruct (test_search_functionality_run W s p) as (out & calls & -> & _).
Qed.

Lemma test_playlist_access_returns (W : World) (st : state) :
  exists v, (test_playlist_access W st).1 = Ret v
            /\ (v = PBool true \/ v = PBool false \/ v = PNone).
Proof.
  destruct st as [s p].
  destruct (test_playlist_access_run W s p) as (out & calls & ->). cbn.
  eexists. split; [reflexivity|].
  destruct (playlist_access_ok W (sp s) (trace p)); [tauto|].
  destruct (empty_answer _); tauto.
Qed.

Lemma test_audio_features_returns (W : World) (st : state) :
  exists v, (test_audio_features W st).1 = Ret v
            /\ (v = PBool true \/ v = PBool false \/ v = PNone).
Proof.
  destruct st as [[res [c|]] p]; unfold test_audio_features; mcase;
    eexists; (split; [reflexivity|tauto]).
Qed.

(** C3 fails on the code.  After a successful authentication,
    [test_audio_features] returns [None], not a boolean, when its search finds
    no track, and [test_playlist_access] returns [None] when the playlist
    fetch returns an empty value: both fall out of their [try] block with no
    [return]. *)
Theorem checks_falling_through_return_None :
  sp (after_authentication no_hits_world).1 = Some sample_client
  /\ remote no_hits_world (trace (after_authentication no_hits_world).2) sample_client
       (Search "track:Blinding Lights artist:The Weeknd" "track" 1)
     = Ret (PDict [("tracks", PDict [("items", PList [])])])
  /\ (test_audio_features no_hits_world (after_authentication no_hits_world)).1
     = Ret PNone
  /\ returned_bool
       (test_audio_features no_hits_world (after_authentication no_hits_world)).1
     = false
  /\ remote empty_playlist_world (trace (after_authentication empty_playlist_world).2)
       sample_client (Playlist playlist_id)
     = Ret PNone
  /\ (test_playlist_access empty_playlist_world
        (after_authentication empty_playlist_world)).1
     = Ret PNone.
Proof. vm_compute. repeat split. Qed.

(** ** Two runs of the whole suite *)

(** Valid credentials and a reachable service: five of five. *)
Example working_world_five_of_five :
  let st' := exec (run_all_tests working_world) (init, empty_process) in
  results st'.1
  = [("environment", true); ("authentication", true); ("api_connection", true);
     ("playlist_access", true); ("search_functionality", true)]
  /\ printed overall_of st' = [(PInt 5, PInt 5)].
Proof. vm_compute. split; reflexivity. Qed.

(** No credentials: every check still runs, none passes, and no request
    leaves the process. *)
Example no_credentials_world_none_of_five :
  let st' := exec (run_all_tests no_credentials_world) (init, empty_process) in
  results st'.1 = results init
  /\ sp st'.1 = None
  /\ printed overall_of st' = [(PInt 0, PInt 5)]
  /\ trace st'.2 = [NewCredentials PNone PNone]
  /\ length (printed header_of st') = 8%nat.
Proof. vm_compute. repeat split. Qed.

(** * Further properties of the script *)

(** ** Checks that run without a client *)

Lemma checks_without_client (W : World) s p :
  sp s = None ->
  test_api_connection W (s, p)
  = (Ret (PBool false),
     (s, after p (header_lines "Testing API Connection"
                  ++ [[Lit "❌ "; Lit "API connection test failed: ";
                       Exc (AttributeError "search")]]) []))
  /\ test_playlist_access W (s, p)
     = (Ret (PBool false),
        (s, after p (header_lines "Testing Playlist Access"
                     ++ [[Lit "❌ "; Lit "Playlist access test failed: ";
                          Exc (AttributeError "playlist")]]) []))
  /\ test_search_functionality W (s, p)
     = (Ret (PBool false),
        (s, after p (header_lines "Testing Search Functionality"
                     ++ [[Lit "❌ "; Lit "Search functionality test failed: ";
                          Exc (AttributeError "search")]]) []))
  /\ test_audio_features W (s, p)
     = (Ret (PBool false),
        (s, after p (header_lines "Testing Audio Features"
                     ++ [[Lit "❌ "; Lit "Audio features test failed: ";
                          Exc (AttributeError "search")]]) [])).
Proof.
  intros Hsp. destruct s as [res self_sp]. cbn in Hsp. subst self_sp.
  unfold test_api_connection, test_playlist_access, playlist_access_body,
    test_search_functionality, test_audio_features, search_queries, search_one,
    after, header_lines.
  mrun. rewrite !app_nil_r, <- !app_assoc. cbn. done.
Qed.

(** X1. With no client handle (authentication failed or never ran), each of
    the four checks that call the service stops at its first method call on
    [None]: it returns [False], sends nothing, leaves the object as it was,
    and prints its header and one error line naming the AttributeError. *)
Theorem checks_without_client_fail_locally (W : World) s p :
  sp s = None ->
  test_api_connection W (s, p)
  = (Ret (PBool false),
     (s, after p (header_lines "Testing API Connection"
                  ++ [[Lit "❌ "; Lit "API connection test failed: ";
                       Exc (AttributeError "search")]]) []))
  /\ test_playlist_access W (s, p)
     = (Ret (PBool false),
        (s, after p (header_lines "Testing Playlist Access"
                     ++ [[Lit "❌ "; Lit "Playlist access test failed: ";
                          Exc (AttributeError "playlist")]]) []))
  /\ test_search_functionality W (s, p)
     = (Ret (PBool false),
        (s, after p (header_lines "Testing Search Functionality"
                     ++ [[Lit "❌ "; Lit "Search functionality test failed: ";
                          Exc (AttributeError "search")]]) []))
  /\ test_audio_features W (s, p)
     = (Ret (PBool false),
        (s, after p (header_lines "Testing Audio Features"
                     ++ [[Lit "❌ "; Lit "Audio features test failed: ";
                          Exc (AttributeError "search")]]) [])).
Proof. apply checks_without_client. Qed.

Lemma checks_without_client_fail_locally_witness :
  sp init = None
  /\ (test_api_connection no_credentials_world (init, empty_process)).1
     = Ret (PBool false).
Proof.
  assert (sp init = None) as Hsp by reflexivity.
  split; [exact Hsp|].
  destruct (checks_without_client_fail_locally no_credentials_world init
              empty_process Hsp) as (-> & _).
  reflexivity.
Defined.


Lemma quick_test_run (W : World) p :
  let env := environ p ∪ dotenv_file W in
  let ok := quick_test_ok W env (trace p) in
  exists out calls,
    quick_test W (tt, p)
    = (Ret (PBool ok),
       (tt, {| environ := env; stdout := out; trace := trace p ++ calls |}))
    /\ (ok = true -> calls = quick_calls env)
    /\ (credentials_present env = false -> calls = [])
    /\ (length (List.filter is_request calls) <= 1)%nat.
Proof.
  intros env ok. subst ok env.
  unfold quick_test, quick_test_ok, quick_calls, quick_client, quick_search,
    env_auth_manager, load_dotenv, dotenv_file.
  destruct (dotenv W) as [file|e0]; cbn [is_ret andb]; mrun;
    [|eexists _, []; rewrite app_nil_r, (right_id_L ∅ (∪));
      repeat split; try done; cbn; lia].
  set (env := environ p ∪ file).
  rewrite !truthy_credential. fold (credentials_present env).
  destruct (credentials_present env) eqn:Hpresent.
  - apply andb_true_iff in Hpresent as [-> ->]. cbn.
    destruct (credentials_error W _ _) as [e|]; mrun.
    { eexists _, [_]. rewrite ?app_nil_r. repeat split; try done. cbn; lia. }
    destruct (spotify_error W _ _ _) as [e|]; mrun.
    { eexists _, [_; _]. rewrite <- ?app_assoc. cbn. repeat split; try done. cbn; lia. }
    rewrite <- !app_assoc. cbn.
    destruct (remote W _ _ _) as [v|e]; mrun;
      [destruct (truthy v) eqn:Hv; mrun|];
      eexists _, [_; _; _]; rewrite <- ?app_assoc; cbn; repeat split; try done; cbn; lia.
  - assert (negb (credential_present env "CLIENT_ID" "SPOTIFY_CLIENT_ID")
            || negb (credential_present env "CLIENT_SECRET" "SPOTIFY_CLIENT_SECRET")
            = true) as ->.
    { unfold credentials_present in Hpresent.
      by destruct (credential_present env "CLIENT_ID" _),
                  (credential_present env "CLIENT_SECRET" _). }
    mrun. eexists _, []. rewrite app_nil_r. repeat split; try done. cbn; lia.
Qed.

Lemma test_authentication_success_run (W : World) s p :
  construction_error W (environ p) = None ->
  exists out,
    test_authentication W (s, p)
    = (Ret (PBool true),
       ({| results := dict_set "authentication" true (results s);
           sp := Some (env_client (environ p)) |},
        {| environ := environ p; stdout := out;
           trace := trace p ++ authentication_calls (environ p) |})).
Proof.
  unfold test_authentication, construction_error, authentication_calls, env_client,
    env_auth_manager. cbn [am_client_id am_client_secret]. intros Hok. mrun.
  destruct (credentials_error W _ _) as [e|]; [done|]. mrun.
  rewrite Hok. mrun. rewrite <- !app_assoc. cbn. by eexists.
Qed.

Lemma test_audio_features_run (W : World) s p :
  exists out v,
    test_audio_features W (s, p)
    = (Ret v,
       (s, {| environ := environ p; stdout := out;
              trace := trace p ++ audio_features_requests W (sp s) (trace p) |}))
    /\ succeeded (Ret v) = audio_features_ok W (sp s) (trace p).
Proof.
  unfold test_audio_features, audio_features_ok, audio_features_requests,
    first_track_id, features_ok, features_search, answer, sent, readable.
  destruct s as [res [c|]]; mcase; rewrite ?app_nil_r, <- ?app_assoc; cbn;
    eexists _, _; (split; [reflexivity|reflexivity]).
Qed.

Lemma test_authentication_first_call (W : World) s p :
  exists rest,
    trace (exec (test_authentication W) (s, p)).2
    = trace p ++ NewCredentials (credential (environ p) "CLIENT_ID" "SPOTIFY_CLIENT_ID")
                   (credential (environ p) "CLIENT_SECRET" "SPOTIFY_CLIENT_SECRET")
                 :: rest.
Proof.
  unfold exec, test_authentication. mrun.
  destruct (credentials_error W _ _) as [e|]; mrun; [by eexists|].
  destruct (spotify_error W _ _ _) as [e|]; mrun;
    rewrite <- app_assoc; by eexists.
Qed.

(** X2. [test_audio_features] returns [True] exactly when its search lists a
    first hit with an "id", the features request for that one id returns, and
    the first features entry is non-empty with its three scores printable as
    numbers with two decimals (a float, a boolean or an integer that fits a
    float) and tempo, key and mode present.  It never raises, never changes
    the object, and sends its search, then at most one features request, for
    the id of the first hit. *)
Theorem test_audio_features_iff_features_readable (W : World) s p :
  let st' := exec (test_audio_features W) (s, p) in
  succeeded (test_audio_features W (s, p)).1 = audio_features_ok W (sp s) (trace p)
  /\ is_ret (test_audio_features W (s, p)).1 = true
  /\ st'.1 = s
  /\ trace st'.2 = trace p ++ audio_features_requests W (sp s) (trace p)
  /\ (length (audio_features_requests W (sp s) (trace p)) <= 2)%nat.
Proof.
  intros st'. subst st'. unfold exec.
  destruct (test_audio_features_run W s p) as (out & v & -> & <-). cbn.
  repeat split.
  unfold audio_features_requests, sent.
  destruct (sp s), (first_track_id _); cbn; lia.
Qed.

(** An integer score too large for a float cannot be printed with [.2f]: the
    [OverflowError] is caught and the check returns [False]; the same entry
    with the score of [sample_features] passes. *)
Example test_audio_features_fails_on_oversized_score :
  numeric_format (PInt (10 ^ 400)) ".2f" = Raise OverflowError
  /\ (test_audio_features oversized_score_world (authenticated, empty_process)).1
     = Ret (PBool false)
  /\ last (stdout (exec (test_audio_features oversized_score_world)
                     (authenticated, empty_process)).2)
     = Some [Lit "❌ "; Lit "Audio features test failed: "; Exc OverflowError]
  /\ (test_audio_features working_world (authenticated, empty_process)).1
     = Ret (PBool true).
Proof. vm_compute. repeat split. Qed.

(** X3. [quick_test] returns [True] exactly when [load_dotenv] returns, both
    credentials are present after it, neither constructor raises, and its one
    search returns a non-empty value, whose content it does not inspect; in
    every other case it returns [False], and it never raises.  In particular
    a [load_dotenv] that raises is caught: the result is [False] and no
    library call is made.  On success the library calls are the
    authenticator, the client with timeout 10 and the library's default
    retries, and the search "artist:Spotify" for one playlist. *)
Theorem quick_test_iff_search_answers (W : World) p :
  let env := environ p ∪ dotenv_file W in
  let ok := quick_test_ok W env (trace p) in
  let st' := exec (quick_test W) (tt, p) in
  (quick_test W (tt, p)).1 = Ret (PBool ok)
  /\ environ st'.2 = env
  /\ (ok = true -> trace st'.2 = trace p ++ quick_calls env)
  /\ (forall e, dotenv W = Raise e ->
        (quick_test W (tt, p)).1 = Ret (PBool false)
        /\ environ st'.2 = environ p
        /\ trace st'.2 = trace p
        /\ last (stdout st'.2) = Some [Lit "❌ API test failed: "; Exc e]).
Proof.
  intros env ok st'. subst st'. split; [|split; [|split]].
  - destruct (quick_test_run W p) as (out & calls & -> & _). by fold env ok.
  - unfold exec. by destruct (quick_test_run W p) as (out & calls & -> & _).
  - unfold exec.
    destruct (quick_test_run W p) as (out & calls & -> & Hcalls & _). fold env ok. cbn.
    intros Hok. by rewrite (Hcalls Hok).
  - intros e He. unfold exec, quick_test, load_dotenv. rewrite He. mrun.
    repeat split. by rewrite last_snoc.
Qed.

Lemma quick_test_iff_search_answers_witness :
  quick_test_ok working_world (environ empty_process ∪ dotenv_file working_world)
    (trace empty_process) = true
  /\ trace (exec (quick_test working_world) (tt, empty_process)).2
     = [NewCredentials (PStr "3f1c") (PStr "9a7e");
        NewSpotify {| am_client_id := PStr "3f1c"; am_client_secret := PStr "9a7e" |}
          10 None;
        Request {| cl_auth_manager := {| am_client_id := PStr "3f1c";
                                         am_client_secret := PStr "9a7e" |};
                   cl_requests_timeout := 10; cl_retries := None |}
          (Search "artist:Spotify" "playlist" 1)].
Proof.
  assert (quick_test_ok working_world
            (environ empty_process ∪ dotenv_file working_world)
            (trace empty_process) = true) as Hok
    by (vm_compute; reflexivity).
  split; [exact Hok|].
  destruct (quick_test_iff_search_answers working_world empty_process)
    as (_ & _ & Htrace & _).
  rewrite (Htrace Hok). vm_compute. reflexivity.
Defined.

(** X4. When neither constructor raises, [test_authentication] returns
    [True], after which "authentication" reads true and every other name
    reads as before, and stores in the handle a client built with timeout 10
    and one retry from the credentials of the environment as it is at the
    call; the only library calls are the two constructors, no request is sent
    and the environment is not changed. *)
Theorem test_authentication_success_sets_handle (W : World) s p :
  construction_error W (environ p) = None ->
  let st' := exec (test_authentication W) (s, p) in
  (test_authentication W (s, p)).1 = Ret (PBool true)
  /\ sp st'.1 = Some (env_client (environ p))
  /\ results st'.1 = dict_set "authentication" true (results s)
  /\ lookup_result "authentication" (results st'.1) = Some true
  /\ (forall name, name <> "authentication" ->
        lookup_result name (results st'.1) = lookup_result name (results s))
  /\ trace st'.2 = trace p ++ authentication_calls (environ p)
  /\ environ st'.2 = environ p.
Proof.
  intros Hok st'. subst st'. unfold exec.
  destruct (test_authentication_success_run W s p Hok) as (out & ->).
  cbn [fst snd results sp trace environ].
  repeat split.
  - rewrite lookup_dict_set. by rewrite String.eqb_refl.
  - intros name Hname. rewrite lookup_dict_set.
    by destruct (String.eqb_spec name "authentication").
Qed.

Lemma test_authentication_success_sets_handle_witness :
  construction_error working_world (environ empty_process) = None
  /\ sp (exec (test_authentication working_world) (init, empty_process)).1
     = Some {| cl_auth_manager := {| am_client_id := PNone; am_client_secret := PNone |};
               cl_requests_timeout := 10; cl_retries := Some 1%Z |}
  /\ lookup_result "authentication" (results init) = Some false
  /\ lookup_result "authentication"
       (results (exec (test_authentication working_world) (init, empty_process)).1)
     = Some true.
Proof.
  assert (construction_error working_world (environ empty_process) = None) as Hok
    by (vm_compute; reflexivity).
  split; [exact Hok|].
  destruct (test_authentication_success_sets_handle working_world init
              empty_process Hok) as (_ & -> & _ & -> & _).
  vm_compute. repeat split.
Defined.

(** X5. [test_authentication] does not load the .env file itself: run on its
    own it hands the authenticator the credentials of the process environment
    alone, and run after [test_environment_variables] it hands over those of
    the environment completed by the .env file. *)
Theorem test_authentication_sees_dotenv_after_environment_check (W : World) s p :
  trace (exec (test_authentication W) (s, p)).2 !! length (trace p)
  = Some (NewCredentials (credential (environ p) "CLIENT_ID" "SPOTIFY_CLIENT_ID")
            (credential (environ p) "CLIENT_SECRET" "SPOTIFY_CLIENT_SECRET"))
  /\ trace (exec (test_authentication W)
              (exec (test_environment_variables W) (s, p))).2 !! length (trace p)
     = Some (NewCredentials
               (credential (environ p ∪ dotenv_file W) "CLIENT_ID" "SPOTIFY_CLIENT_ID")
               (credential (environ p ∪ dotenv_file W) "CLIENT_SECRET"
                  "SPOTIFY_CLIENT_SECRET")).
Proof.
  split.
  - destruct (test_authentication_first_call W s p) as (rest & ->).
    by rewrite lookup_app_r, Nat.sub_diag.
  - unfold exec at 2.
    destruct (test_environment_variables_run W s p) as (out & ->).
    destruct (dotenv W); cbn [snd];
      match goal with
      | |- context [exec _ (?s1, ?p1)] =>
          destruct (test_authentication_first_call W s1 p1) as (rest & ->)
      end;
      cbn [trace environ]; by rewrite lookup_app_r, Nat.sub_diag.
Qed.

(** ** What the script asks of the libraries *)

#[global] Instance extends_with_preorder {S} (P : action -> bool) :
  PreOrder (extends_with (S:=S) P).
Proof.
  split.
  - intros st. exists []. by rewrite app_nil_r.
  - intros a b c (calls1 & H1 & Hall1) (calls2 & H2 & Hall2).
    exists (calls1 ++ calls2). rewrite H2, H1, <- app_assoc.
    by rewrite forallb_app, Hall1, Hall2.
Qed.

Ltac prim_extends :=
  let s := fresh "s" in
  let p := fresh "p" in
  intros [s p];
  unfold exec, extends_with,
    print, load_dotenv, record, request, get_sp, set_sp, get_results, set_result;
  try match goal with |- context [dotenv ?W] => destruct (dotenv W) end;
  cbn;
  first [ by (exists []; rewrite app_nil_r) | by (eexists [_]) ].

Ltac extends_step :=
  match goal with
  | |- respects _ (mbind _ _) => apply respects_bind; [apply _| |intros ?]
  | |- respects _ (try_except _ _) => apply respects_try; [apply _| |intros ?]
  | |- respects _ (for_each _ _) => apply respects_for; [apply _|intros ?]
  | |- respects _ (mret _) => apply respects_ret; apply _
  | |- respects _ (raise _) => apply respects_raise; apply _
  | |- respects _ (eval _) => apply respects_eval; apply _
  | |- respects _ (getenv_or _ _) => apply respects_getenv_or; apply _
  | |- respects _ (if ?c then _ else _) => destruct c
  | |- respects _ (match ?x with _ => _ end) => destruct x
  | |- respects _ _ => solve [prim_extends]
  end.

Ltac extends_all :=
  unfold run_all_tests, run_tests, tests, quick_test,
    test_environment_variables, test_authentication, test_api_connection,
    test_playlist_access, playlist_access_body, test_search_functionality,
    test_audio_features,
    print_summary, print_verdict, run_test, search_one, print_item, print_row,
    print_sample,
    SpotifyClientCredentials, Spotify, invoke,
    print_header, print_success, print_error, print_info, found_or_missing;
  cbn [for_each fst snd];
  repeat extends_step.

Lemma run_all_tests_allowed (W : World) :
  respects (extends_with allowed) (run_all_tests W).
Proof. extends_all. Qed.

Lemma quick_test_allowed (W : World) :
  respects (extends_with allowed) (quick_test W).
Proof. extends_all. Qed.

Lemma test_authentication_no_request (W : World) :
  respects (extends_with (fun a => negb (is_request a))) (test_authentication W).
Proof. extends_all. Qed.



(** ** The summary, line by line *)

Lemma print_rows_run (d : list (string * bool)) s p :
  for_each d print_row (s, p) = (Ret tt, (s, after p (map row_line d) [])).
Proof.
  revert p. induction d as [|[k b] d IH]; intros p.
  - cbn. unfold after. rewrite !app_nil_r. by destruct p.
  - cbn [for_each map]. unfold mbind, M_bind, print_row. rewrite print_run, IH.
    unfold after, row_line; cbn. by rewrite !app_nil_r, <- app_assoc.
Qed.

Lemma print_summary_run s p :
  print_summary (s, p) = (Ret tt, (s, after p (summary_lines (results s)) [])).
Proof.
  unfold print_summary, summary_lines, mbind, M_bind.
  rewrite print_header_run. unfold get_results. rewrite print_rows_run, print_run.
  unfold print_verdict, verdict_lines, overall_line.
  destruct (Nat.eqb _ _); mrun; unfold after; cbn;
    by rewrite !app_nil_r, <- !app_assoc.
Qed.

Lemma sum_values_le_length (d : list (string * bool)) :
  (sum_values d <= length d)%nat.
Proof.
  induction d as [|[k b] d IH]; [done|]. rewrite sum_values_cons. cbn.
  destruct b; lia.
Qed.

Lemma all_true_iff_sum (d : list (string * bool)) :
  Nat.eqb (sum_values d) (length d) = forallb snd d.
Proof.
  induction d as [|[k b] d IH]; [done|].
  rewrite sum_values_cons. cbn [length forallb snd].
  pose proof (sum_values_le_length d) as Hle.
  destruct b; cbn [andb]; [by rewrite <- IH|].
  apply Nat.eqb_neq. lia.
Qed.

Lemma omap_row_lines (d : list (string * bool)) :
  omap row_of (map row_line d)
  = map (fun item => (ljust 20 (title (replace_char "_" " " item.1)), item.2)) d.
Proof.
  induction d as [|[k b] d IH]; [done|].
  rewrite map_cons. change (row_line (k, b) :: map row_line d)
    with ([row_line (k, b)] ++ map row_line d).
  rewrite omap_app, IH. by destruct b.
Qed.

Lemma omap_verdict_rows (d : list (string * bool)) :
  omap verdict_of (map row_line d) = [].
Proof.
  induction d as [|[k b] d IH]; [done|].
  rewrite map_cons. change (row_line (k, b) :: map row_line d)
    with ([row_line (k, b)] ++ map row_line d).
  by rewrite omap_app, IH.
Qed.

Lemma length_string_app (s1 s2 : string) :
  String.length (s1 +:+ s2) = (String.length s1 + String.length s2)%nat.
Proof. induction s1 as [|c s1 IH]; [done|]. simpl. by f_equal. Qed.

Lemma length_repeat_string (n : nat) : String.length (repeat_string " " n) = n.
Proof. induction n as [|n IH]; [done|]. cbn [repeat_string]. by rewrite length_string_app, IH. Qed.

Lemma length_ljust (width : nat) (s : string) :
  String.length (ljust width s) = Nat.max width (String.length s).
Proof.
  unfold ljust. rewrite length_string_app, length_repeat_string. lia.
Qed.

(** X6. [print_summary] prints exactly one verdict: the success banner when
    every entry of the mapping is true (also when the mapping is empty), the
    "Some tests failed" line with the troubleshooting tips otherwise.  The
    passed-count never exceeds the total, and the object, the environment and
    the trace are left as they were. *)
Theorem print_summary_verdict_iff_all_true (st : state) :
  let st' := exec print_summary st in
  printed verdict_of st' = printed verdict_of st ++ [forallb snd (results st.1)]
  /\ (sum_values (results st.1) <= length (results st.1))%nat
  /\ st'.1 = st.1
  /\ environ st'.2 = environ st.2
  /\ trace st'.2 = trace st.2.
Proof.
  destruct st as [s p]. intros st'. subst st'. unfold exec.
  rewrite print_summary_run. unfold printed, after, summary_lines. cbn [fst snd stdout].
  rewrite !omap_app, omap_verdict_rows, all_true_iff_sum.
  split; [|split; [apply sum_values_le_length|]].
  - unfold header_lines, overall_line, verdict_lines, bar.
    destruct (forallb snd (results s)); reflexivity.
  - cbn. by rewrite app_nil_r.
Qed.

(** X7. On a mapping that holds the five names of [__init__] in their order,
    whatever their values, [print_summary] prints five rows, in that order,
    labelled "Environment", "Authentication", "Api Connection",
    "Playlist Access" and "Search Functionality", each label padded with
    spaces to 20 characters, and the status of a row is PASS exactly when the
    entry is true. *)
Theorem print_summary_rows_of_the_five_checks (st : state) :
  (results st.1).*1 = check_names ->
  printed row_of (exec print_summary st)
  = printed row_of st
    ++ zip ["Environment         "; "Authentication      "; "Api Connection      ";
            "Playlist Access     "; "Search Functionality"]
         (results st.1).*2.
Proof.
  destruct st as [s p]. cbn [fst]. intros Hnames.
  unfold exec. rewrite print_summary_run.
  unfold printed, after, summary_lines. cbn [fst snd stdout].
  rewrite !omap_app, omap_row_lines.
  assert (omap row_of (header_lines "Test Summary") = []) as -> by reflexivity.
  assert (forall l, omap row_of
                      (overall_line (sum_values (results s)) (length (results s)) :: l)
                    = omap row_of l) as -> by (intros l; reflexivity).
  assert (omap row_of (verdict_lines
                         (Nat.eqb (sum_values (results s)) (length (results s)))) = [])
    as -> by (by destruct (Nat.eqb _ _)).
  rewrite app_nil_r. cbn [app]. f_equal.
  unfold check_names in Hnames.
  destruct (results s) as [|[k1 b1] [|[k2 b2] [|[k3 b3] [|[k4 b4] [|[k5 b5] [|]]]]]];
    try done.
  cbn in Hnames. injection Hnames as -> -> -> -> ->.
  vm_compute. reflexivity.
Qed.

Lemma print_summary_rows_of_the_five_checks_witness :
  (results (after_authentication working_world).1).*1 = check_names
  /\ printed row_of (exec print_summary (after_authentication working_world))
     = [("Environment         ", true); ("Authentication      ", true);
        ("Api Connection      ", false); ("Playlist Access     ", false);
        ("Search Functionality", false)].
Proof.
  assert ((results (after_authentication working_world).1).*1 = check_names) as Hnames
    by (vm_compute; reflexivity).
  split; [exact Hnames|].
  rewrite (print_summary_rows_of_the_five_checks _ Hnames).
  vm_compute. reflexivity.
Defined.
(** ** Whole runs *)

Lemma run_test_exec name (t : Method pyval) (st : state) :
  is_ret (t st).1 = true -> exec (run_test (name, t)) st = exec t st.
Proof.
  intros Hret. unfold exec. rewrite run_test_run.
  by destruct (t st) as [[v|e] st'].
Qed.

Lemma exec_print_header message (s : SpotifyAPITester) p :
  exec (print_header message) (s, p) = (s, after p (header_lines message) []).
Proof. unfold exec. by rewrite print_header_run. Qed.

Lemma environment_step (W : World) name s p :
  exists out,
    exec (run_test (name, test_environment_variables W)) (s, p)
    = ({| results := if is_ret (dotenv W)
                        && credentials_present (environ p ∪ dotenv_file W)
                     then dict_set "environment" true (results s)
                     else results s;
          sp := sp s |},
       {| environ := environ p ∪ dotenv_file W; stdout := out; trace := trace p |}).
Proof.
  destruct (test_environment_variables_run W s p) as (out & Hrun).
  unfold exec. rewrite run_test_run, Hrun.
  destruct (dotenv W) as [file|e]; cbn [is_ret andb].
  - by exists out.
  - unfold exec, print_error. rewrite print_run. unfold after. cbn.
    rewrite app_nil_r. destruct s. eexists. reflexivity.
Qed.

Lemma failed_authentication_step (W : World) name s p e :
  construction_error W (environ p) = Some e ->
  exists out calls,
    exec (run_test (name, test_authentication W)) (s, p)
    = (s, {| environ := environ p; stdout := out; trace := trace p ++ calls |})
    /\ forallb (fun a => negb (is_request a)) calls = true.
Proof.
  intros Herr.
  pose proof (test_authentication_no_request W (s, p)) as (calls & Htrace & Hcalls).
  destruct (test_authentication_run W s p) as (out & calls' & Hrun).
  rewrite Herr in Hrun.
  rewrite run_test_exec by (by rewrite Hrun).
  unfold exec in *. rewrite Hrun in Htrace |- *. cbn [snd trace] in Htrace.
  apply app_inv_head in Htrace. subst calls'.
  eexists _, calls. by split.
Qed.

Lemma no_client_step (W : World) name (t : Method pyval) s p :
  sp s = None ->
  In t [test_api_connection W; test_playlist_access W;
        test_search_functionality W; test_audio_features W] ->
  exists out,
    exec (run_test (name, t)) (s, p)
    = (s, {| environ := environ p; stdout := out; trace := trace p |}).
Proof.
  intros Hsp Ht.
  destruct (checks_without_client W s p Hsp) as (H1 & H2 & H3 & H4).
  cbn [In] in Ht.
  destruct Ht as [<-|[<-|[<-|[<-|[]]]]];
    (rewrite run_test_exec by (by rewrite ?H1, ?H2, ?H3, ?H4));
    unfold exec; rewrite ?H1, ?H2, ?H3, ?H4; unfold after; cbn;
    rewrite app_nil_r; by eexists.
Qed.

Lemma failed_authentication_state (W : World) p e :
  construction_error W (environ p ∪ dotenv_file W) = Some e ->
  exists out calls,
    after_tests W 6 (init, p)
    = ({| results := if is_ret (dotenv W)
                        && credentials_present (environ p ∪ dotenv_file W)
                     then dict_set "environment" true (results init)
                     else results init;
          sp := None |},
       {| environ := environ p ∪ dotenv_file W; stdout := out;
          trace := trace p ++ calls |})
    /\ forallb (fun a => negb (is_request a)) calls = true.
Proof.
  intros Herr. unfold after_tests. cbn [firstn tests fold_left].
  rewrite exec_print_header.
  destruct (environment_step W "test_environment_variables" init
              (after p (header_lines "Starting Spotify API Test Suite") []))
    as (out1 & ->).
  cbn [after environ stdout trace sp init]. rewrite app_nil_r.
  match goal with
  | |- context [exec (run_test (_, test_authentication W)) (?s1, ?p1)] =>
      destruct (failed_authentication_step W "test_authentication" s1 p1 e Herr)
        as (out2 & calls & -> & Hcalls)
  end.
  cbn [environ stdout trace].
  repeat match goal with
  | |- context [exec (run_test (?n, ?t)) (?s1, ?p1)] =>
      let out := fresh "out" in
      destruct (no_client_step W n t s1 p1 eq_refl ltac:(cbn; tauto)) as (out & ->);
      cbn [environ stdout trace]
  end.
  eexists _, calls. split; [reflexivity|exact Hcalls].
Qed.

(** X8. When building the authenticator or the client raises in a run of
    [run_all_tests] on a fresh object, the four checks that need the client
    still run and fail, no request is sent and the handle stays [None]; only
    "environment" can be true at the end, and it is exactly when the .env
    file loaded and both credentials were present, so the summary reads 1/5
    then and 0/5 otherwise. *)
Theorem failed_authentication_run_sends_nothing (W : World) p e :
  construction_error W (environ p ∪ dotenv_file W) = Some e ->
  let present := is_ret (dotenv W)
                 && credentials_present (environ p ∪ dotenv_file W) in
  let st' := exec (run_all_tests W) (init, p) in
  results st'.1
  = [("environment", present); ("authentication", false); ("api_connection", false);
     ("playlist_access", false); ("search_functionality", false)]
  /\ sp st'.1 = None
  /\ List.filter is_request (trace st'.2) = List.filter is_request (trace p)
  /\ printed overall_of st'
     = printed overall_of (init, p) ++ [(PInt (if present then 1 else 0), PInt 5)].
Proof.
  intros Herr present st'.
  destruct (run_all_tests_overall W p) as (_ & Hsame & Hline).
  rewrite after_tests_silent_overall in Hline. fold st' in Hsame, Hline.
  assert (st' = exec print_summary (after_tests W 6 (init, p))) as Hst'
    by (subst st'; unfold exec at 1; by rewrite after_tests_all).
  destruct (failed_authentication_state W p e Herr) as (out & calls & Hstate & Hcalls).
  fold present in Hstate. rewrite Hstate in Hst'.
  unfold exec in Hst'. rewrite print_summary_run in Hst'. cbn [snd] in Hst'.
  assert (results st'.1
          = [("environment", present); ("authentication", false);
             ("api_connection", false); ("playlist_access", false);
             ("search_functionality", false)]) as Hresults
    by (rewrite Hst'; by destruct present).
  split; [exact Hresults|]. split; [by rewrite Hst'|]. split.
  - rewrite Hst'. cbn [snd after trace]. rewrite app_nil_r, List.filter_app.
    assert (List.filter is_request calls = []) as ->; [|by rewrite app_nil_r].
    clear -Hcalls. induction calls as [|a calls IH]; [done|].
    cbn in *. apply andb_true_iff in Hcalls as [Ha Hcalls].
    destruct (is_request a); [done|]. by apply IH.
  - rewrite Hline. rewrite <- Hsame, Hresults. by destruct present.
Qed.

Lemma failed_authentication_run_sends_nothing_witness :
  construction_error unreadable_dotenv_rejecting_world
    (environ process_with_credentials ∪ dotenv_file unreadable_dotenv_rejecting_world)
  = Some (LibraryError "invalid_client")
  /\ credentials_present
       (environ process_with_credentials
        ∪ dotenv_file unreadable_dotenv_rejecting_world) = true
  /\ results (exec (run_all_tests unreadable_dotenv_rejecting_world)
                (init, process_with_credentials)).1
     = results init
  /\ List.filter is_request
       (trace (exec (run_all_tests unreadable_dotenv_rejecting_world)
                 (init, process_with_credentials)).2) = []
  /\ printed overall_of (exec (run_all_tests unreadable_dotenv_rejecting_world)
                           (init, process_with_credentials))
     = [(PInt 0, PInt 5)].
Proof.
  assert (construction_error unreadable_dotenv_rejecting_world
            (environ process_with_credentials
             ∪ dotenv_file unreadable_dotenv_rejecting_world)
          = Some (LibraryError "invalid_client")) as Herr
    by (vm_compute; reflexivity).
  split; [exact Herr|]. split; [vm_compute; reflexivity|].
  destruct (failed_authentication_run_sends_nothing unreadable_dotenv_rejecting_world
              process_with_credentials _ Herr) as (Hresults & _ & Hreq & Hline).
  split; [rewrite Hresults; vm_compute; reflexivity|].
  split; [exact Hreq|]. rewrite Hline. vm_compute. reflexivity.
Defined.

(** ** The sample tracks of the playlist check *)

Lemma slice_to_length v n l : slice_to v n = Ret l -> (length l <= n)%nat.
Proof.
  unfold slice_to. destruct v; try done; intros [= <-].
  - rewrite length_map. apply firstn_le_length.
  - apply firstn_le_length.
Qed.

Lemma print_sample_numbered i item s p :
  exists out r,
    print_sample (i, item) (s, p)
    = (r, (s, {| environ := environ p; stdout := stdout p ++ out; trace := trace p |}))
    /\ omap sample_of out = (if is_ret r then [PInt (Z.of_nat i + 1)] else []).
Proof.
  unfold print_sample.
  mcase; try (eexists [], (Raise _); rewrite app_nil_r; by destruct p).
  by eexists [_], (Ret tt).
Qed.

Lemma print_samples_numbered (l : list pyval) (g : nat -> nat) s p :
  exists out r k,
    for_each (imap (fun i x => (g i, x)) l) print_sample (s, p)
    = (r, (s, {| environ := environ p; stdout := stdout p ++ out; trace := trace p |}))
    /\ (k <= length l)%nat
    /\ omap sample_of out = map (fun j => PInt (Z.of_nat (g j) + 1)) (seq 0 k).
Proof.
  revert g p. induction l as [|item l IH]; intros g p.
  - exists [], (Ret tt), 0%nat. cbn. rewrite app_nil_r. by destruct p.
  - rewrite imap_cons. cbn [for_each]. unfold mbind, M_bind.
    destruct (print_sample_numbered (g 0%nat) item s p) as (out1 & r1 & -> & Hout1).
    destruct r1 as [[]|e]; cbn [is_ret] in Hout1.
    + destruct (IH (g ∘ S) {| environ := environ p; stdout := stdout p ++ out1;
                              trace := trace p |}) as (out & r & k & Hrun & Hk & Hout).
      exists (out1 ++ out), r, (S k). cbn [environ stdout trace] in Hrun.
      rewrite app_assoc. split; [exact Hrun|]. split; [cbn; lia|].
      rewrite omap_app, Hout1, Hout. cbn [seq map app]. f_equal.
      by rewrite <- seq_shift, map_map.
    + exists out1, (Raise e), 0%nat. split; [done|]. split; [cbn; lia|]. by rewrite Hout1.
Qed.

Lemma print_enumerated_samples_numbered (l : list pyval) s p :
  exists out r k,
    for_each (enumerate l) print_sample (s, p)
    = (r, (s, {| environ := environ p; stdout := stdout p ++ out; trace := trace p |}))
    /\ (k <= length l)%nat
    /\ omap sample_of out = map (fun j => PInt (Z.of_nat j + 1)) (seq 0 k).
Proof. apply (print_samples_numbered l id). Qed.

Ltac no_sample_printed :=
  exists 0%nat; split; [lia|];
  unfold printed; cbn; rewrite ?omap_app; cbn;
  repeat (match goal with x : fragment |- _ => destruct x end; cbn);
  rewrite ?app_nil_r; reflexivity.

(** X15. [test_playlist_access] prints at most three sample-track lines,
    however many items the service returns, and numbers them 1, 2, 3 in
    order; a sample that cannot be read ends the list. *)
Theorem test_playlist_access_prints_at_most_three_samples (W : World) s p :
  exists k,
    (k <= 3)%nat
    /\ printed sample_of (exec (test_playlist_access W) (s, p))
       = printed sample_of (s, p) ++ map (fun j => PInt (Z.of_nat j + 1)) (seq 0 k).
Proof.
  unfold exec, test_playlist_access, playlist_access_body.
  destruct s as [res [c|]]; mcase;
    try match goal with
        | Hslice : slice_to _ 3 = Ret ?l
          |- context [for_each (enumerate ?l) print_sample (?s, ?p')] =>
            destruct (print_enumerated_samples_numbered l s p')
              as (out & r & k & -> & Hk & Hout);
            apply slice_to_length in Hslice;
            destruct r as [[]|?]; cbn;
            (exists k; split; [lia|]);
            unfold printed; cbn; rewrite ?omap_app, ?Hout; cbn;
            repeat (match goal with x : fragment |- _ => destruct x end; cbn);
            rewrite ?app_nil_r; reflexivity
        end;
    no_sample_printed.
Qed.



Lemma test_playlist_access_requests (W : World) s p :
  exists out r,
    test_playlist_access W (s, p)
    = (r,
       ({| results := if playlist_access_ok W (sp s) (trace p)
                      then dict_set "playlist_access" true (results s)
                      else results s;
           sp := sp s |},
        {| environ := environ p; stdout := out;
           trace := trace p ++ playlist_requests W (sp s) (trace p) |}))
    /\ is_ret r = true.
Proof.
  unfold test_playlist_access, playlist_access_body, playlist_access_ok, playlist_requests,
    playlist_metadata_ok, samples_ok, answer, sent, readable.
  destruct s as [res [c|]]; mcase;
    try match goal with
        | |- context [for_each (enumerate ?l) print_sample (?s, ?p')] =>
            destruct (print_enumerated_samples_run l s p') as (out & r & -> & <-);
            destruct r as [[]|?]; cbn
        end;
    rewrite ?app_nil_r, <- ?(app_assoc (trace p)); cbn;
    eexists _, (Ret _); (split; [reflexivity|reflexivity]).
Qed.

Lemma test_authentication_exact (W : World) s p :
  let ok := match construction_error W (environ p) with
            | None => true
            | Some _ => false
            end in
  exists out,
    test_authentication W (s, p)
    = (Ret (PBool ok),
       ({| results := if ok then dict_set "authentication" true (results s)
                      else results s;
           sp := if ok then Some (env_client (environ p)) else sp s |},
        {| environ := environ p; stdout := out;
           trace := trace p ++ authentication_attempt W (environ p) |})).
Proof.
  unfold test_authentication, construction_error, authentication_attempt, env_client,
    env_auth_manager. cbn [am_client_id am_client_secret].
  destruct s as [res self_sp]. mrun.
  destruct (credentials_error W _ _) as [e|]; mrun.
  - eexists. reflexivity.
  - destruct (spotify_error W _ _ _) as [e|]; mrun;
      rewrite <- (app_assoc (trace p)); cbn; eexists; reflexivity.
Qed.

Lemma authentication_step (W : World) name s p :
  let ok := match construction_error W (environ p) with
            | None => true
            | Some _ => false
            end in
  exists out,
    exec (run_test (name, test_authentication W)) (s, p)
    = ({| results := if ok then dict_set "authentication" true (results s)
                     else results s;
          sp := if ok then Some (env_client (environ p)) else sp s |},
       {| environ := environ p; stdout := out;
          trace := trace p ++ authentication_attempt W (environ p) |}).
Proof.
  intros ok. destruct (test_authentication_exact W s p) as (out & Hrun). fold ok in Hrun.
  rewrite run_test_exec by (by rewrite Hrun).
  unfold exec. rewrite Hrun. by exists out.
Qed.

Lemma api_connection_step (W : World) name s p :
  let search := Search "artist:Ed Sheeran" "track" 1 in
  let ok := api_connection_ok (answer W (sp s) (trace p) "search" search) in
  exists out,
    exec (run_test (name, test_api_connection W)) (s, p)
    = ({| results := if ok then dict_set "api_connection" true (results s)
                     else results s;
          sp := sp s |},
       {| environ := environ p; stdout := out;
          trace := trace p ++ sent (sp s) search |}).
Proof.
  intros search ok. destruct (test_api_connection_run W s p) as (out & Hrun).
  fold search ok in Hrun.
  rewrite run_test_exec by (by rewrite Hrun).
  unfold exec. rewrite Hrun. by exists out.
Qed.

Lemma playlist_access_step (W : World) name s p :
  exists out,
    exec (run_test (name, test_playlist_access W)) (s, p)
    = ({| results := if playlist_access_ok W (sp s) (trace p)
                     then dict_set "playlist_access" true (results s)
                     else results s;
          sp := sp s |},
       {| environ := environ p; stdout := out;
          trace := trace p ++ playlist_requests W (sp s) (trace p) |}).
Proof.
  destruct (test_playlist_access_requests W s p) as (out & r & Hrun & Hret).
  rewrite run_test_exec by (by rewrite Hrun).
  unfold exec. rewrite Hrun. by exists out.
Qed.

Lemma search_functionality_step (W : World) name s p :
  exists out calls,
    exec (run_test (name, test_search_functionality W)) (s, p)
    = ({| results := if searches_ok W (sp s) (trace p) search_queries
                     then dict_set "search_functionality" true (results s)
                     else results s;
          sp := sp s |},
       {| environ := environ p; stdout := out; trace := trace p ++ calls |}).
Proof.
  destruct (test_search_functionality_run W s p) as (out & calls & Hrun & _).
  rewrite run_test_exec by (by rewrite Hrun).
  unfold exec. rewrite Hrun. by exists out, calls.
Qed.

Lemma audio_features_step (W : World) name s p :
  exists out calls,
    exec (run_test (name, test_audio_features W)) (s, p)
    = (s, {| environ := environ p; stdout := out; trace := trace p ++ calls |}).
Proof.
  destruct (test_audio_features_run W s p) as (out & v & Hrun & _).
  rewrite run_test_exec by (by rewrite Hrun).
  unfold exec. rewrite Hrun. by eexists _, _.
Qed.

Lemma after_tests_results (W : World) p :
  results (after_tests W 6 (init, p)).1 = expected_results W p
  /\ sp (after_tests W 6 (init, p)).1
     = match construction_error W (environ p ∪ dotenv_file W) with
       | None => Some (env_client (environ p ∪ dotenv_file W))
       | Some _ => None
       end.
Proof.
  unfold after_tests. cbn [firstn tests fold_left].
  rewrite exec_print_header.
  destruct (environment_step W "test_environment_variables" init
              (after p (header_lines "Starting Spotify API Test Suite") []))
    as (out1 & ->).
  cbn [after environ stdout trace sp init]. rewrite app_nil_r.
  match goal with
  | |- context [exec (run_test (_, test_authentication W)) (?s1, ?p1)] =>
      destruct (authentication_step W "test_authentication" s1 p1) as (out2 & ->)
  end.
  cbn [environ stdout trace sp results].
  match goal with
  | |- context [exec (run_test (_, test_api_connection W)) (?s1, ?p1)] =>
      destruct (api_connection_step W "test_api_connection" s1 p1) as (out3 & ->)
  end.
  cbn [environ stdout trace sp results].
  match goal with
  | |- context [exec (run_test (_, test_playlist_access W)) (?s1, ?p1)] =>
      destruct (playlist_access_step W "test_playlist_access" s1 p1) as (out4 & ->)
  end.
  cbn [environ stdout trace sp results].
  match goal with
  | |- context [exec (run_test (_, test_search_functionality W)) (?s1, ?p1)] =>
      destruct (search_functionality_step W "test_search_functionality" s1 p1)
        as (out5 & calls5 & ->)
  end.
  cbn [environ stdout trace sp results].
  match goal with
  | |- context [exec (run_test (_, test_audio_features W)) (?s1, ?p1)] =>
      destruct (audio_features_step W "test_audio_features" s1 p1)
        as (out6 & calls6 & ->)
  end.
  cbn [fst results sp]. unfold expected_results.
  destruct (construction_error W (environ p ∪ dotenv_file W)) as [e|];
    (split; [|reflexivity]);
    repeat match goal with
           | |- context [if ?b then _ else _] => destruct b eqn:?
           end; reflexivity.
Qed.

(** ** What a whole run records *)

Lemma tests_silent_verdict (W : World) :
  Forall (fun t => respects (silent verdict_of) (run_test t)) (tests W).
Proof.
  unfold tests. repeat apply Forall_cons_2; [..|apply Forall_nil_2];
    (apply run_test_respects; [apply _| |intros e]); respects_all.
Qed.

Lemma after_tests_silent_verdict (W : World) n st :
  printed verdict_of (after_tests W n st) = printed verdict_of st.
Proof.
  unfold after_tests.
  pose proof (fold_respects (silent verdict_of) (take n (tests W))
                (exec (print_header "Starting Spotify API Test Suite") st)) as Hfold.
  unfold silent in Hfold. rewrite Hfold by apply Forall_take, tests_silent_verdict.
  assert (respects (silent verdict_of) (print_header "Starting Spotify API Test Suite"))
    as H by respects_all.
  apply H.
Qed.

Lemma print_summary_verdict (st : state) :
  printed verdict_of (exec print_summary st)
  = printed verdict_of st ++ [forallb snd (results st.1)].
Proof.
  destruct st as [s p]. unfold exec.
  rewrite print_summary_run. unfold printed, after, summary_lines. cbn [fst snd stdout].
  rewrite !omap_app, omap_verdict_rows, all_true_iff_sum.
  unfold header_lines, overall_line, verdict_lines, bar.
  destruct (forallb snd (results s)); reflexivity.
Qed.

(** X9. A run of [run_all_tests] on a fresh object records, for each of the
    five names, the outcome of its own check: "environment" is whether
    [load_dotenv] returned and both credentials are present after it (when it
    raises, the runner reports the crash and goes on); "authentication" is whether
    both constructors returned; "api_connection", "playlist_access" and
    "search_functionality" are whether the answers to the requests of that
    check, sent after the requests of the checks before it and on the client
    that authentication built, could be read.  The summary prints their number
    out of 5, and the success banner exactly when all five are true. *)
Theorem run_all_tests_records_each_outcome (W : World) p :
  let st' := exec (run_all_tests W) (init, p) in
  results st'.1 = expected_results W p
  /\ printed overall_of st'
     = printed overall_of (init, p)
       ++ [(PInt (Z.of_nat (sum_values (expected_results W p))), PInt 5)]
  /\ printed verdict_of st'
     = printed verdict_of (init, p) ++ [forallb snd (expected_results W p)].
Proof.
  intros st'.
  assert (st' = exec print_summary (after_tests W 6 (init, p))) as Hst'
    by (subst st'; unfold exec at 1; by rewrite after_tests_all).
  destruct (after_tests_results W p) as (Hresults & _).
  assert (results st'.1 = expected_results W p) as Hfinal.
  { rewrite Hst'. pose proof (print_summary_results (after_tests W 6 (init, p))) as H.
    unfold same_results in H. by rewrite H. }
  split; [exact Hfinal|]. split.
  - destruct (run_all_tests_overall W p) as (Hkeys & Hsame & Hline).
    fold st' in Hkeys, Hsame, Hline.
    rewrite Hline, after_tests_silent_overall, <- Hsame.
    by rewrite <- (sum_values_check_names _ Hkeys), Hfinal.
  - rewrite Hst', print_summary_verdict, after_tests_silent_verdict. by rewrite Hresults.
Qed.



(** A .env file that cannot be read, with both credentials in the process
    environment: [test_environment_variables] crashes, the runner reports it,
    and the other checks pass on the credentials of the environment: 4/5. *)
Example unreadable_dotenv_world_four_of_five :
  let st' := exec (run_all_tests unreadable_dotenv_world)
               (init, process_with_credentials) in
  results st'.1
  = [("environment", false); ("authentication", true); ("api_connection", true);
     ("playlist_access", true); ("search_functionality", true)]
  /\ expected_results unreadable_dotenv_world process_with_credentials = results st'.1
  /\ In [Lit "❌ "; Lit "Test "; Lit "test_environment_variables"; Lit " crashed: ";
         Exc ValueError] (stdout st'.2)
  /\ printed overall_of st' = [(PInt 4, PInt 5)].
Proof. vm_compute. repeat split. tauto. Qed.

(** ** How many requests a run sends *)

Lemma on_client_app self_sp rs1 rs2 :
  on_client self_sp rs1 ++ on_client self_sp rs2 = on_client self_sp (rs1 ++ rs2).
Proof. destruct self_sp; cbn; [by rewrite map_app|done]. Qed.

Lemma sent_on_client self_sp r : sent self_sp r = on_client self_sp [r].
Proof. by destruct self_sp. Qed.

Lemma searches_requests (W : World) (queries : list (string * string)) s p :
  Forall (fun query => In query.2 entity_types) queries ->
  exists out rs r,
    for_each queries (search_one W) (s, p)
    = (r, (s, {| environ := environ p; stdout := stdout p ++ out;
                 trace := trace p ++ on_client (sp s) rs |}))
    /\ (length rs <= length queries)%nat.
Proof.
  intros Htypes. revert p.
  induction Htypes as [|[q type] queries Htype _ IH]; intros p.
  - exists [], [], (Ret tt). cbn. split; [|lia].
    destruct (sp s); cbn; rewrite !app_nil_r; by destruct p.
  - cbn [for_each]. unfold mbind, M_bind.
    destruct (search_one_run W q type s p Htype) as (out1 & r1 & -> & _).
    rewrite sent_on_client.
    destruct r1 as [[]|e].
    + destruct (IH {| environ := environ p; stdout := stdout p ++ out1;
                      trace := trace p ++ on_client (sp s) [Search q type 1] |})
        as (out & rs & r & Hrun & Hlen).
      exists (out1 ++ out), (Search q type 1 :: rs), r.
      cbn [environ stdout trace] in Hrun.
      rewrite <- (app_assoc (trace p)), on_client_app in Hrun.
      rewrite app_assoc. split; [exact Hrun|cbn; lia].
    + exists out1, [Search q type 1], (Raise e). split; [done|cbn; lia].
Qed.

Lemma search_functionality_requests (W : World) name s p :
  exists out rs,
    exec (run_test (name, test_search_functionality W)) (s, p)
    = ({| results := if searches_ok W (sp s) (trace p) search_queries
                     then dict_set "search_functionality" true (results s)
                     else results s;
          sp := sp s |},
       {| environ := environ p; stdout := out;
          trace := trace p ++ on_client (sp s) rs |})
    /\ (length rs <= 4)%nat.
Proof.
  destruct (search_functionality_step W name s p) as (out & calls & Hstep).
  assert (exists rs, trace (exec (test_search_functionality W) (s, p)).2
                     = trace p ++ on_client (sp s) rs /\ (length rs <= 4)%nat)
    as (rs & Htrace & Hlen).
  { unfold exec, test_search_functionality.
    unfold mbind at 1, M_bind at 1. rewrite print_header_run.
    unfold try_except, mbind, M_bind.
    destruct (searches_requests W search_queries s
                (after p (header_lines "Testing Search Functionality") [])
                search_queries_types) as (out' & rs & r & -> & Hlen).
    cbn [after trace stdout environ]. rewrite app_nil_r.
    exists rs. split; [|exact Hlen].
    destruct r as [[]|e]; mrun; reflexivity. }
  destruct (test_search_functionality_run W s p) as (out0 & calls0 & Hrun & _).
  rewrite run_test_exec in Hstep by (by rewrite Hrun).
  rewrite Hstep in Htrace. cbn [snd trace] in Htrace.
  apply app_inv_head in Htrace. subst calls.
  rewrite run_test_exec by (by rewrite Hrun).
  rewrite Hstep. by exists out, rs.
Qed.

Lemma audio_features_requests_on_client (W : World) self_sp calls :
  exists rs, audio_features_requests W self_sp calls = on_client self_sp rs
             /\ (length rs <= 2)%nat.
Proof.
  unfold audio_features_requests.
  destruct (first_track_id _) as [track_id|].
  - exists [features_search; AudioFeatures [track_id]].
    split; [|cbn; lia]. by destruct self_sp.
  - exists [features_search]. split; [|cbn; lia]. rewrite app_nil_r. by destruct self_sp.
Qed.

Lemma playlist_requests_on_client (W : World) self_sp calls :
  exists rs, playlist_requests W self_sp calls = on_client self_sp rs
             /\ (length rs <= 2)%nat.
Proof.
  unfold playlist_requests.
  destruct (answer W self_sp calls "playlist" (Playlist playlist_id)) as [playlist|e];
    [destruct (truthy playlist && playlist_metadata_ok playlist)|].
  - exists [Playlist playlist_id; PlaylistTracks playlist_id 3].
    split; [|cbn; lia]. by destruct self_sp.
  - exists [Playlist playlist_id]. split; [|cbn; lia]. rewrite app_nil_r.
    by destruct self_sp.
  - exists [Playlist playlist_id]. split; [|cbn; lia]. rewrite app_nil_r.
    by destruct self_sp.
Qed.

Lemma audio_features_exact_step (W : World) name s p :
  exists out,
    exec (run_test (name, test_audio_features W)) (s, p)
    = (s, {| environ := environ p; stdout := out;
             trace := trace p ++ audio_features_requests W (sp s) (trace p) |}).
Proof.
  destruct (test_audio_features_run W s p) as (out & v & Hrun & _).
  rewrite run_test_exec by (by rewrite Hrun).
  unfold exec. rewrite Hrun. by eexists.
Qed.

Lemma after_tests_trace (W : World) p :
  let env := environ p ∪ dotenv_file W in
  exists rs,
    trace (after_tests W 6 (init, p)).2
    = trace p ++ authentication_attempt W env
      ++ on_client (match construction_error W env with
                    | None => Some (env_client env)
                    | Some _ => None
                    end) rs
    /\ (length rs <= 9)%nat.
Proof.
  intros env. unfold after_tests. cbn [firstn tests fold_left].
  rewrite exec_print_header.
  destruct (environment_step W "test_environment_variables" init
              (after p (header_lines "Starting Spotify API Test Suite") []))
    as (out1 & ->).
  cbn [after environ stdout trace sp init]. rewrite app_nil_r.
  match goal with
  | |- context [exec (run_test (_, test_authentication W)) (?s1, ?p1)] =>
      destruct (authentication_step W "test_authentication" s1 p1) as (out2 & ->)
  end.
  cbn [environ stdout trace sp results]. fold env.
  set (self_sp := if match construction_error W env with
                     | None => true
                     | Some _ => false
                     end then Some (env_client env) else None).
  match goal with
  | |- context [exec (run_test (_, test_api_connection W)) (?s1, ?p1)] =>
      destruct (api_connection_step W "test_api_connection" s1 p1) as (out3 & ->)
  end.
  cbn [environ stdout trace sp results].
  match goal with
  | |- context [exec (run_test (_, test_playlist_access W)) (?s1, ?p1)] =>
      destruct (playlist_access_step W "test_playlist_access" s1 p1) as (out4 & ->)
  end.
  cbn [environ stdout trace sp results].
  match goal with
  | |- context [playlist_requests W self_sp ?calls] =>
      destruct (playlist_requests_on_client W self_sp calls) as (rs4 & -> & Hlen4)
  end.
  match goal with
  | |- context [exec (run_test (_, test_search_functionality W)) (?s1, ?p1)] =>
      destruct (search_functionality_requests W "test_search_functionality" s1 p1)
        as (out5 & rs5 & -> & Hlen5)
  end.
  cbn [environ stdout trace sp results].
  match goal with
  | |- context [exec (run_test (_, test_audio_features W)) (?s1, ?p1)] =>
      destruct (audio_features_exact_step W "test_audio_features" s1 p1)
        as (out6 & ->)
  end.
  cbn [environ stdout trace sp results snd].
  match goal with
  | |- context [audio_features_requests W self_sp ?calls] =>
      destruct (audio_features_requests_on_client W self_sp calls)
        as (rs6 & -> & Hlen6)
  end.
  rewrite sent_on_client.
  exists ([Search "artist:Ed Sheeran" "track" 1] ++ rs4 ++ rs5 ++ rs6).
  split; [|rewrite !length_app; cbn; lia].
  rewrite <- !on_client_app, <- !app_assoc.
  subst self_sp. by destruct (construction_error W env).
Qed.

(** X10. A run of [run_all_tests] on a fresh object asks the libraries for
    the authenticator, then (if that did not raise) for the client, and after
    that sends at most nine requests, all of them on the client that
    [test_authentication] built; when building it failed no request is sent. *)
Theorem run_all_tests_sends_at_most_nine_requests (W : World) p :
  let env := environ p ∪ dotenv_file W in
  let self_sp := match construction_error W env with
                 | None => Some (env_client env)
                 | Some _ => None
                 end in
  exists rs,
    trace (exec (run_all_tests W) (init, p)).2
    = trace p ++ authentication_attempt W env ++ on_client self_sp rs
    /\ (length rs <= 9)%nat
    /\ (length (authentication_attempt W env) <= 2)%nat.
Proof.
  intros env self_sp.
  destruct (after_tests_trace W p) as (rs & Htrace & Hlen). fold env self_sp in Htrace.
  exists rs. split; [|split; [exact Hlen|]].
  - unfold exec. rewrite after_tests_all. cbn [snd].
    destruct (after_tests W 6 (init, p)) as [s6 p6]. unfold exec.
    rewrite print_summary_run. cbn [snd after trace] in *. by rewrite app_nil_r.
  - unfold authentication_attempt. destruct (credentials_error W _ _); cbn; lia.
Qed.

(** X11. Whatever the state it starts in and whatever the libraries answer,
    [run_all_tests] only appends to the trace, and only these library calls:
    the two constructors with timeout 10, searches with limit 1, the fixed
    playlist, three of its tracks, and the audio features of a single track.
    The same holds of [quick_test]. *)
Theorem script_makes_only_allowed_calls (W : World) (st : state) (p : process) :
  (exists calls,
     trace (exec (run_all_tests W) st).2 = trace st.2 ++ calls
     /\ forallb allowed calls = true)
  /\ (exists calls,
        trace (exec (quick_test W) (tt, p)).2 = trace p ++ calls
        /\ forallb allowed calls = true).
Proof.
  split.
  - apply (run_all_tests_allowed W st).
  - apply (quick_test_allowed W (tt, p)).
Qed.

(** X12. No exception escapes the five checks that wrap their body in a
    [try] block, nor [quick_test], whatever the constructors and the service
    raise and whatever shape the answers have. *)
Theorem no_exception_escapes_a_check (W : World) (st : state) (p : process) :
  is_ret (test_authentication W st).1 = true
  /\ is_ret (test_api_connection W st).1 = true
  /\ is_ret (test_playlist_access W st).1 = true
  /\ is_ret (test_search_functionality W st).1 = true
  /\ is_ret (test_audio_features W st).1 = true
  /\ is_ret (quick_test W (tt, p)).1 = true.
Proof.
  destruct st as [s p0]. repeat split.
  - destruct (test_authentication_run W s p0) as (out & calls & ->).
    by destruct (construction_error W (environ p0)).
  - by destruct (test_api_connection_run W s p0) as (out & ->).
  - by destruct (test_playlist_access_run W s p0) as (out & calls & ->).
  - by destruct (test_search_functionality_run W s p0) as (out & calls & -> & _).
  - by destruct (test_audio_features_run W s p0) as (out & v & -> & _).
  - by destruct (quick_test_run W p) as (out & calls & -> & _).
Qed.

(** X13. [test_environment_variables] is idempotent: run a second time it
    returns what it returned the first time and leaves the object, the
    environment and the trace as the first run left them. *)
Theorem test_environment_variables_idempotent (W : World) (st : state) :
  let st1 := exec (test_environment_variables W) st in
  let st2 := exec (test_environment_variables W) st1 in
  (test_environment_variables W st1).1 = (test_environment_variables W st).1
  /\ st2.1 = st1.1
  /\ environ st2.2 = environ st1.2
  /\ trace st2.2 = trace st1.2.
Proof.
  destruct st as [s p]. intros st1 st2. subst st2 st1. unfold exec.
  destruct (test_environment_variables_run W s p) as (out1 & ->).
  destruct (dotenv W) as [file|e] eqn:Hdotenv; cbn [snd];
    match goal with
    | |- context [test_environment_variables W (?s1, ?p1)] =>
        destruct (test_environment_variables_run W s1 p1) as (out2 & ->)
    end;
    rewrite Hdotenv; cbn [fst snd environ trace results sp];
    rewrite <- (assoc_L (∪)), (idemp_L (∪) (dotenv_file W)); [|done].
  destruct (credentials_present _); cbn; by rewrite ?dict_set_idem.
Qed.

(** ** The entry point *)

Lemma main_run (W : World) (argv : list string) p :
  main W argv (tt, p)
  = (Ret tt,
     (tt, if quick_requested argv
          then (exec (quick_test W) (tt, p)).2
          else (exec (run_all_tests W) (init, p)).2)).
Proof.
  assert (with_tester (run_all_tests W) (tt, p)
          = (Ret tt, (tt, (exec (run_all_tests W) (init, p)).2))) as Hfull.
  { unfold with_tester, exec. rewrite after_tests_all.
    by destruct (exec print_summary _). }
  unfold main, quick_requested.
  destruct argv as [|arg0 [|arg1 rest]]; cbn [nth_error]; try exact Hfull.
  destruct (String.eqb arg1 "quick"); [|exact Hfull].
  unfold mbind, M_bind, exec.
  destruct (quick_test_run W p) as (out & calls & -> & _). reflexivity.
Qed.

Lemma filter_request_on_client self_sp rs :
  (length (List.filter is_request (on_client self_sp rs)) <= length rs)%nat.
Proof.
  destruct self_sp as [c|]; cbn; [|lia].
  induction rs as [|r rs IH]; cbn; lia.
Qed.

Lemma run_all_tests_requests (W : World) p :
  exists calls,
    trace (exec (run_all_tests W) (init, p)).2 = trace p ++ calls
    /\ (length (List.filter is_request calls) <= 9)%nat.
Proof.
  destruct (after_tests_trace W p) as (rs & Htrace & Hlen).
  eexists. split.
  - unfold exec. rewrite after_tests_all. cbn [snd].
    destruct (after_tests W 6 (init, p)) as [s6 p6]. unfold exec.
    rewrite print_summary_run. cbn [snd after trace] in *.
    rewrite app_nil_r. exact Htrace.
  - rewrite List.filter_app, length_app.
    pose proof (filter_request_on_client
                  (match construction_error W (environ p ∪ dotenv_file W) with
                   | None => Some (env_client (environ p ∪ dotenv_file W))
                   | Some _ => None
                   end) rs).
    assert (List.filter is_request
              (authentication_attempt W (environ p ∪ dotenv_file W)) = []) as ->.
    { unfold authentication_attempt. by destruct (credentials_error W _ _). }
    cbn. lia.
Qed.

(** X14. The entry point never raises and its result does not depend on what
    the checks found.  It runs [quick_test] exactly when a first argument is
    given and is "quick" (further arguments are ignored), and otherwise the
    whole suite on a fresh object; in the first case it sends at most one
    request, in the second at most nine. *)
Theorem main_dispatches_on_first_argument (W : World) (argv : list string) p :
  let after_main := (exec (main W argv) (tt, p)).2 in
  (main W argv (tt, p)).1 = Ret tt
  /\ after_main = (if quick_requested argv
                   then (exec (quick_test W) (tt, p)).2
                   else (exec (run_all_tests W) (init, p)).2)
  /\ exists calls,
       trace after_main = trace p ++ calls
       /\ (length (List.filter is_request calls)
           <= if quick_requested argv then 1 else 9)%nat.
Proof.
  intros after_main.
  assert (after_main = if quick_requested argv
                       then (exec (quick_test W) (tt, p)).2
                       else (exec (run_all_tests W) (init, p)).2) as ->
    by (subst after_main; unfold exec at 1; by rewrite main_run).
  split; [by rewrite main_run|]. split; [done|].
  destruct (quick_requested argv).
  - destruct (quick_test_run W p) as (out & calls & Hrun & _ & _ & Hlen).
    unfold exec. rewrite Hrun. cbn [snd trace]. by exists calls.
  - destruct (run_all_tests_requests W p) as (calls & -> & Hlen). by exists calls.
Qed.
